(** * Contacts REST API: repository, routes and token service

    A shallow embedding of the contact repository
    ([src/repository/contacts.py]), of the contact routes
    ([src/routes/contacts.py]), of the table declarations
    ([src/database/models.py]) and of the token service
    ([src/services/auth.py]), followed by the properties proved of them.

    Conventions of the embedding:
    - a table is the list of its rows, in the order a query without
      ORDER BY yields them; [filter], [first], [all], [limit] and [offset]
      of the query API are the list operations of the same meaning;
    - an [async def] that only reads is a function of the session; one
      that writes returns its outcome together with the session after it;
    - a raised exception is the [Raise] outcome; it is never caught by the
      handlers modelled here, except where the source has a [try];
    - instants ([datetime.utcnow()], [func.now()]) are POSIX seconds in
      [Z] and are passed in by the caller, as is [date.today()];
    - the constraints the tables declare (primary key, [unique=True]) are
      enforced by the database when a transaction commits. *)

From Stdlib Require Import ZArith List String Bool Lia.
From stdpp Require Import base option list gmap strings.
Import ListNotations.

Local Open Scope Z_scope.
Local Open Scope string_scope.

(** ** Exceptions and outcomes *)

Inductive exn : Type :=
| HTTPException (status_code : Z) (detail : string)
| IntegrityError
| OverflowError
| KeyError (key : string).

Inductive result (A : Type) : Type :=
| Return (a : A)
| Raise (e : exn).

Arguments Return {A} a.
Arguments Raise {A} e.

Module status.
Definition HTTP_401_UNAUTHORIZED : Z := 401.
Definition HTTP_404_NOT_FOUND : Z := 404.
Definition HTTP_409_CONFLICT : Z := 409.
Definition HTTP_422_UNPROCESSABLE_ENTITY : Z := 422.
End status.

(** ** Calendar dates ([datetime.date]) *)

Module datetime.

Record date : Type := { year : Z; month : Z; day : Z }.

Definition MAXYEAR : Z := 9999.

Definition is_leap (y : Z) : bool :=
  (y mod 4 =? 0)%Z && (negb (y mod 100 =? 0)%Z || (y mod 400 =? 0)%Z).

Definition days_in_month (y m : Z) : Z :=
  if (m =? 2)%Z then (if is_leap y then 29 else 28)
  else if (m =? 4)%Z || (m =? 6)%Z || (m =? 9)%Z || (m =? 11)%Z then 30
  else 31.

Definition valid (d : date) : Prop :=
  1 <= year d <= MAXYEAR /\ 1 <= month d <= 12 /\
  1 <= day d <= days_in_month (year d) (month d).

Definition tomorrow (d : date) : date :=
  if (day d <? days_in_month (year d) (month d))%Z
  then {| year := year d; month := month d; day := day d + 1 |}
  else if (month d <? 12)%Z
  then {| year := year d; month := month d + 1; day := 1 |}
  else {| year := year d + 1; month := 1; day := 1 |}.

Fixpoint add_days (n : nat) (d : date) : date :=
  match n with
  | O => d
  | S k => add_days k (tomorrow d)
  end.

(** [d + timedelta(days=n)]: a result after year [MAXYEAR] is an
    [OverflowError]. *)
Definition plus_timedelta (d : date) (days : nat) : result date :=
  let r := add_days days d in
  if (year r <=? MAXYEAR)%Z then Return r else Raise OverflowError.

Definition eqb (a b : date) : bool :=
  (year a =? year b)%Z && (month a =? month b)%Z && (day a =? day b)%Z.

End datetime.

(** ** Tables ([src/database/models.py]) and request bodies
       ([src/schemas.py]) *)

Module User.
Record t : Type := {
  id : Z;
  username : string;
  email : string;
  password : string;
  created_at : Z;
  refresh_token : option string;
  avatar : option string;
  confirmed : bool
}.
End User.

(** Rows of [contacts] are written only by [create_contact] and [update]
    below, from a validated [ContactModel] and the authenticated user, so
    no column of a stored row is NULL.  [birthday] is a DateTime column
    that always holds a date at midnight; only its date part is kept. *)
Module Contact.
Record t : Type := {
  id : Z;
  first_name : string;
  last_name : string;
  email : string;
  phone : string;
  birthday : datetime.date;
  created_at : Z;
  updated_at : Z;
  user_id : Z
}.
End Contact.

Module ContactModel.
Record t : Type := {
  first_name : string;
  last_name : string;
  email : string;
  phone : string;
  birthday : datetime.date
}.
End ContactModel.

(** ** The database session

    [contacts] and [users] are the two tables; [contacts_id_seq] is the
    next value of the generator behind the integer primary key
    [Contact.id]; [commits] counts the transactions committed so far.

    The generator stands for the backend's choice of a key for a new row.
    What is meant by it is that the key is not among the stored ones;
    which unused key it is (a backend may skip values, or give out again
    the key of a removed row) is not, and the properties below do not
    depend on it. *)

Record Session : Type := {
  contacts : list Contact.t;
  users : list User.t;
  contacts_id_seq : Z;
  commits : nat
}.

Definition DB (A : Type) : Type := Session -> result A * Session.

Definition ret {A} (a : A) : DB A := fun db => (Return a, db).
Definition raise {A} (e : exn) : DB A := fun db => (Raise e, db).
Definition bind {A B} (m : DB A) (k : A -> DB B) : DB B :=
  fun db =>
    match m db with
    | (Return a, db') => k a db'
    | (Raise e, db') => (Raise e, db')
    end.
Definition query {A} (q : Session -> A) : DB A := fun db => (Return (q db), db).

Notation "'do' x <- m ; k" := (bind m (fun x => k))
  (at level 10, x name, m at level 100, k at level 200).

(** Query API. *)
Definition first {A} (rows : list A) : option A := List.hd_error rows.
Definition limit {A} (n : nat) (rows : list A) : list A := List.firstn n rows.
Definition offset {A} (n : nat) (rows : list A) : list A := List.skipn n rows.

(** ** Writes to the [contacts] table

    The table declares [id] as integer primary key and [email] with
    [unique=True] ([models.py]).  An INSERT or UPDATE that would give two
    rows the same email fails at [db.commit()] with an [IntegrityError];
    the transaction is rolled back and the table is left as it was. *)

Module table.

(** Some row holds [email]. *)
Definition email_held (email : string) (rows : list Contact.t) : bool :=
  List.existsb (fun c => String.eqb (Contact.email c) email) rows.

(** The rows other than the one with primary key [pk]. *)
Definition other_rows (pk : Z) (rows : list Contact.t) : list Contact.t :=
  List.filter (fun c => negb (Contact.id c =? pk)%Z) rows.

(** The five assignments of [update]; [updated_at] follows the column's
    [onupdate=func.now()].  The assigned birthday is a [date] while the
    loaded attribute is a [datetime], so the unit of work always sees a
    change and the UPDATE is always emitted. *)
Definition assign (body : ContactModel.t) (now : Z) (c : Contact.t) : Contact.t :=
  {| Contact.id := Contact.id c;
     Contact.first_name := ContactModel.first_name body;
     Contact.last_name := ContactModel.last_name body;
     Contact.email := ContactModel.email body;
     Contact.phone := ContactModel.phone body;
     Contact.birthday := ContactModel.birthday body;
     Contact.created_at := Contact.created_at c;
     Contact.updated_at := now;
     Contact.user_id := Contact.user_id c |}.

(** [UPDATE contacts SET ... WHERE contacts.id = pk]: what becomes of
    one row, and of the table.  The row is rewritten where it stands in
    the list; a backend may yield an updated row elsewhere in a query
    without ORDER BY, so the properties of [update] below speak of which
    rows are stored, not of where the updated row stands. *)
Definition set_where_id (pk : Z) (body : ContactModel.t) (now : Z) (c : Contact.t)
  : Contact.t :=
  if (Contact.id c =? pk)%Z then assign body now c else c.

Definition update_where_id (pk : Z) (body : ContactModel.t) (now : Z)
           (rows : list Contact.t) : list Contact.t :=
  List.map (set_where_id pk body now) rows.

(** [DELETE FROM contacts WHERE contacts.id = pk]. *)
Definition delete_where_id (pk : Z) (rows : list Contact.t) : list Contact.t :=
  other_rows pk rows.

End table.

(** ** Contact repository ([src/repository/contacts.py]) *)

Module repository_contacts.

(** [.filter_by(user_id=user.id).limit(limit).offset(offset).all()] is
    the statement [... WHERE user_id = ? LIMIT limit OFFSET offset]:
    [offset] rows are skipped, then at most [limit] are kept.  The two
    bounds are naturals: what a negative bound does is the backend's
    business, not the repository's. *)
Definition get_contacts (limit_ offset_ : nat) (user : User.t) (db : Session)
  : list Contact.t :=
  limit limit_
    (offset offset_
       (List.filter (fun c => (Contact.user_id c =? User.id user)%Z) (contacts db))).

Definition get_contact_by_id (contact_id : Z) (user : User.t) (db : Session)
  : option Contact.t :=
  first (List.filter
           (fun c => (Contact.user_id c =? User.id user)%Z
                     && (Contact.id c =? contact_id)%Z)
           (contacts db)).

Definition get_contact_by_email (contact_email : string) (user : User.t) (db : Session)
  : option Contact.t :=
  first (List.filter
           (fun c => (Contact.user_id c =? User.id user)%Z
                     && String.eqb (Contact.email c) contact_email)
           (contacts db)).

Definition get_contact_by_first_name (contact_first_name : string) (user : User.t)
           (db : Session) : list Contact.t :=
  List.filter
    (fun c => (Contact.user_id c =? User.id user)%Z
              && String.eqb (Contact.first_name c) contact_first_name)
    (contacts db).

Definition get_contact_by_last_name (contact_last_name : string) (user : User.t)
           (db : Session) : list Contact.t :=
  List.filter
    (fun c => (Contact.user_id c =? User.id user)%Z
              && String.eqb (Contact.last_name c) contact_last_name)
    (contacts db).

(** The filter of [get_birthday], for given [today] and [next_week]. *)
Definition birthday_filter (today next_week : datetime.date) (user : User.t)
           (c : Contact.t) : bool :=
  (Contact.user_id c =? User.id user)%Z
  && (datetime.day (Contact.birthday c) >=? datetime.day today)%Z
  && (datetime.day (Contact.birthday c) <=? datetime.day next_week)%Z
  && (datetime.month (Contact.birthday c) =? datetime.month today)%Z.

Definition get_birthday (today : datetime.date) (user : User.t) (db : Session)
  : result (list Contact.t) :=
  match datetime.plus_timedelta today 7 with
  | Return next_week =>
      Return (List.filter (birthday_filter today next_week user) (contacts db))
  | Raise e => Raise e
  end.

(** The new row takes the body's fields and the user as owner; after
    [db.add], [db.commit] and [db.refresh] it has the next primary key and
    [func.now()] for both timestamps. *)
Definition create_contact (body : ContactModel.t) (user : User.t) (now : Z)
  : DB Contact.t :=
  fun db =>
    let contact :=
      {| Contact.id := contacts_id_seq db;
         Contact.first_name := ContactModel.first_name body;
         Contact.last_name := ContactModel.last_name body;
         Contact.email := ContactModel.email body;
         Contact.phone := ContactModel.phone body;
         Contact.birthday := ContactModel.birthday body;
         Contact.created_at := now;
         Contact.updated_at := now;
         Contact.user_id := User.id user |} in
    if table.email_held (Contact.email contact) (contacts db)
    then (Raise IntegrityError, db)
    else (Return contact,
          {| contacts := contacts db ++ [contact];
             users := users db;
             contacts_id_seq := contacts_id_seq db + 1;
             commits := S (commits db) |}).

Definition update (contact_id : Z) (body : ContactModel.t) (user : User.t) (now : Z)
  : DB (option Contact.t) :=
  fun db =>
    match get_contact_by_id contact_id user db with
    | Some contact =>
        if table.email_held (ContactModel.email body)
             (table.other_rows (Contact.id contact) (contacts db))
        then (Raise IntegrityError, db)
        else (Return (Some (table.assign body now contact)),
              {| contacts := table.update_where_id (Contact.id contact) body now (contacts db);
                 users := users db;
                 contacts_id_seq := contacts_id_seq db;
                 commits := S (commits db) |})
    | None => (Return None, db)
    end.

Definition remove (contact_id : Z) (user : User.t) : DB (option Contact.t) :=
  fun db =>
    match get_contact_by_id contact_id user db with
    | Some contact =>
        (Return (Some contact),
         {| contacts := table.delete_where_id (Contact.id contact) (contacts db);
            users := users db;
            contacts_id_seq := contacts_id_seq db;
            commits := S (commits db) |})
    | None => (Return None, db)
    end.

End repository_contacts.

(** ** Contact routes ([src/routes/contacts.py])

    A handler is modelled from the point where its dependencies are
    resolved: [current_user] is the user [get_current_user] returned and
    [db] the session.  A path parameter declared [Path(ge=1)] is a
    [positive]: smaller values are refused by the framework before the
    handler runs.  The rate limiter is outside the model. *)

Module routes_contacts.

Definition not_found : exn := HTTPException status.HTTP_404_NOT_FOUND "Not Found".

Definition create_contact (body : ContactModel.t) (current_user : User.t) (now : Z)
  : DB Contact.t :=
  do contact <- query (repository_contacts.get_contact_by_email
                         (ContactModel.email body) current_user);
  match contact with
  | Some _ => raise (HTTPException status.HTTP_409_CONFLICT "Email is exists")
  | None => repository_contacts.create_contact body current_user now
  end.

Definition search_contact_7_days_birthday (today : datetime.date)
           (current_user : User.t) (db : Session) : result (list Contact.t) :=
  match repository_contacts.get_birthday today current_user db with
  | Return contacts_ =>
      if (Z.of_nat (List.length contacts_) <? 1)%Z then Raise not_found
      else Return contacts_
  | Raise e => Raise e
  end.

Definition get_contact (contact_id : positive) (current_user : User.t) (db : Session)
  : result Contact.t :=
  match repository_contacts.get_contact_by_id (Z.pos contact_id) current_user db with
  | None => Raise not_found
  | Some contact => Return contact
  end.

Definition update_contact (body : ContactModel.t) (contact_id : positive)
           (current_user : User.t) (now : Z) : DB Contact.t :=
  do contact <- repository_contacts.update (Z.pos contact_id) body current_user now;
  match contact with
  | None => raise not_found
  | Some contact => ret contact
  end.

Definition remove_contact (contact_id : positive) (current_user : User.t)
  : DB Contact.t :=
  do contact <- repository_contacts.remove (Z.pos contact_id) current_user;
  match contact with
  | None => raise not_found
  | Some contact => ret contact
  end.

Definition search_contact_by_email (contact_email : string) (current_user : User.t)
           (db : Session) : result Contact.t :=
  match repository_contacts.get_contact_by_email contact_email current_user db with
  | None => Raise not_found
  | Some contact => Return contact
  end.

Definition search_contact_by_first_name (contact_first_name : string)
           (current_user : User.t) (db : Session) : result (list Contact.t) :=
  let contacts_ :=
    repository_contacts.get_contact_by_first_name contact_first_name current_user db in
  if (Z.of_nat (List.length contacts_) <? 1)%Z then Raise not_found
  else Return contacts_.

Definition search_contact_by_last_name (contact_last_name : string)
           (current_user : User.t) (db : Session) : result (list Contact.t) :=
  let contacts_ :=
    repository_contacts.get_contact_by_last_name contact_last_name current_user db in
  if (Z.of_nat (List.length contacts_) <? 1)%Z then Raise not_found
  else Return contacts_.

End routes_contacts.

(** ** Token service ([src/services/auth.py])

    A decoded payload is a dict from claim names to JSON values. *)

Inductive json : Type :=
| JNull
| JBool (b : bool)
| JNum (n : Z)
| JStr (s : string).

Definition json_eqb (a b : json) : bool :=
  match a, b with
  | JNull, JNull => true
  | JBool x, JBool y => Bool.eqb x y
  | JNum x, JNum y => (x =? y)%Z
  | JStr x, JStr y => String.eqb x y
  | _, _ => false
  end.

(** The token library ([jose.jwt]) and the two settings the service reads
    ([settings.secret_key], [settings.algorithm]) are not part of the
    repository; they are taken as an interface.

    - [jwt_encode claims key algorithm] is the signed token; [iat] and
      [exp] are carried as POSIX seconds.
    - [jwt_decode token key algorithms now] is the payload, or [None] when
      the library raises [JWTError] (bad signature, malformed token,
      expired at instant [now], invalid registered claim).
    - [jwt_decode_encode]: a token holding a string subject, the two
      instants and a string scope, signed with the configured key and
      algorithm, decodes to the same claims as long as [now] has not
      passed [exp]. *)
Class JWT : Type := {
  token : Type;
  SECRET_KEY : string;
  ALGORITHM : string;
  jwt_encode : gmap string json -> string -> string -> token;
  jwt_decode : token -> string -> list string -> Z -> option (gmap string json);
  jwt_decode_encode :
    forall (sub scope : string) (iat exp now : Z),
      now <= exp ->
      let claims : gmap string json :=
        <["scope" := JStr scope]>
          (<["exp" := JNum exp]> (<["iat" := JNum iat]> {["sub" := JStr sub]})) in
      jwt_decode (jwt_encode claims SECRET_KEY ALGORITHM) SECRET_KEY [ALGORITHM] now
      = Some claims
}.

Module repository_users.

(** Modelled from the spec: [src/repository/users.py] is not among the
    sources; the user repository's get-by-email returns the stored user
    with the given email, or none. *)
Definition get_user_by_email (email : string) (db : Session) : option User.t :=
  first (List.filter (fun u => String.eqb (User.email u) email) (users db)).

End repository_users.

Module Auth.

Section service.

Context `{JWT}.

Definition minutes (n : Z) : Z := n * 60.
Definition days (n : Z) : Z := n * 86400.

(** [expires_delta], a number of seconds, is falsy when absent or zero. *)
Definition expiry (now : Z) (expires_delta : option Z) (default : Z) : Z :=
  match expires_delta with
  | Some delta => if (delta =? 0)%Z then now + default else now + delta
  | None => now + default
  end.

(** [to_encode.update({'iat': .., 'exp': .., 'scope': ..})]. *)
Definition stamp (data : gmap string json) (iat exp : Z) (scope : string)
  : gmap string json :=
  <["scope" := JStr scope]> (<["exp" := JNum exp]> (<["iat" := JNum iat]> data)).

Definition create_access_token (data : gmap string json) (expires_delta : option Z)
           (now : Z) : token :=
  let to_encode := data in
  let expire := expiry now expires_delta (minutes 15) in
  jwt_encode (stamp to_encode now expire "access_token") SECRET_KEY ALGORITHM.

Definition create_refresh_token (data : gmap string json) (expires_delta : option Z)
           (now : Z) : token :=
  let to_encode := data in
  let expire := expiry now expires_delta (days 7) in
  jwt_encode (stamp to_encode now expire "refresh_token") SECRET_KEY ALGORITHM.

Definition create_email_token (data : gmap string json) (now : Z) : token :=
  let to_encode := data in
  let expire := now + days 3 in
  jwt_encode (stamp to_encode now expire "email_token") SECRET_KEY ALGORITHM.

Definition credentials_exception : exn :=
  HTTPException status.HTTP_401_UNAUTHORIZED "Could not validate credentials".

(** [payload.get('scope') == 'access_token']. *)
Definition scope_is (payload : gmap string json) (scope : string) : bool :=
  match payload !! "scope" with
  | Some v => json_eqb v (JStr scope)
  | None => false
  end.

(** The library refuses a token whose [sub] is not a string, so a decoded
    subject is a string or absent; any other value is treated like an
    email no user has. *)
Definition get_current_user (token_ : token) (now : Z) (db : Session) : result User.t :=
  match jwt_decode token_ SECRET_KEY [ALGORITHM] now with
  | Some payload =>
      if scope_is payload "access_token" then
        match payload !! "sub" with
        | None | Some JNull => Raise credentials_exception
        | Some (JStr email) =>
            match repository_users.get_user_by_email email db with
            | None => Raise credentials_exception
            | Some user => Return user
            end
        | Some _ => Raise credentials_exception
        end
      else Raise credentials_exception
  | None => Raise credentials_exception
  end.

(** [payload['scope']] and [payload['sub']] raise [KeyError] on a missing
    key; neither that nor the [HTTPException] is caught by
    [except JWTError]. *)
Definition decode_refresh_token (refresh_token : token) (now : Z) : result json :=
  match jwt_decode refresh_token SECRET_KEY [ALGORITHM] now with
  | Some payload =>
      match payload !! "scope" with
      | None => Raise (KeyError "scope")
      | Some scope =>
          if json_eqb scope (JStr "refresh_token") then
            match payload !! "sub" with
            | None => Raise (KeyError "sub")
            | Some email => Return email
            end
          else Raise (HTTPException status.HTTP_401_UNAUTHORIZED "Invalid scope for token")
      end
  | None =>
      Raise (HTTPException status.HTTP_401_UNAUTHORIZED "Could not validate credentials")
  end.

(** The function has no statement after the [if]: with another scope it
    runs off its end and returns [None]. *)
Definition get_email_from_token (token_ : token) (now : Z) : result (option json) :=
  match jwt_decode token_ SECRET_KEY [ALGORITHM] now with
  | Some payload =>
      match payload !! "scope" with
      | None => Raise (KeyError "scope")
      | Some scope =>
          if json_eqb scope (JStr "email_token") then
            match payload !! "sub" with
            | None => Raise (KeyError "sub")
            | Some email => Return (Some email)
            end
          else Return None
      end
  | None =>
      Raise (HTTPException status.HTTP_422_UNPROCESSABLE_ENTITY
               "Invalid token for email verification")
  end.

End service.

End Auth.

(** ** A symbolic token library

    Signing is perfect: a token is its claims together with the key and
    algorithm that signed it, or an unparsable string.  Decoding checks the
    key, the algorithm, the expiry and the type of the subject. *)

Module symbolic.

Inductive t : Type :=
| Signed (claims : gmap string json) (key algorithm : string)
| Malformed (text : string).

Definition encode (claims : gmap string json) (key algorithm : string) : t :=
  Signed claims key algorithm.

Definition not_expired (claims : gmap string json) (now : Z) : bool :=
  match claims !! "exp" with
  | Some (JNum exp) => (now <=? exp)%Z
  | Some _ => false
  | None => true
  end.

Definition subject_ok (claims : gmap string json) : bool :=
  match claims !! "sub" with
  | Some (JStr _) | None => true
  | Some _ => false
  end.

Definition decode (tok : t) (key : string) (algorithms : list string) (now : Z)
  : option (gmap string json) :=
  match tok with
  | Signed claims k a =>
      if String.eqb k key && List.existsb (String.eqb a) algorithms
         && not_expired claims now && subject_ok claims
      then Some claims
      else None
  | Malformed _ => None
  end.

Lemma decode_encode (key algorithm sub scope : string) (iat exp now : Z) :
  now <= exp ->
  let claims : gmap string json :=
    <["scope" := JStr scope]>
      (<["exp" := JNum exp]> (<["iat" := JNum iat]> {["sub" := JStr sub]})) in
  decode (encode claims key algorithm) key [algorithm] now = Some claims.
Proof.
  intros Hnow claims. unfold decode, encode, not_expired, subject_ok, claims.
  rewrite lookup_insert_ne by discriminate. rewrite lookup_insert_eq.
  do 3 (rewrite lookup_insert_ne by discriminate). rewrite lookup_singleton_eq.
  cbn [List.existsb]. rewrite !String.eqb_refl.
  apply Z.leb_le in Hnow. rewrite Hnow. reflexivity.
Qed.

#[local] Instance library : JWT := {|
  token := t;
  SECRET_KEY := "secret_key";
  ALGORITHM := "HS256";
  jwt_encode := encode;
  jwt_decode := decode;
  jwt_decode_encode := decode_encode "secret_key" "HS256"
|}.

End symbolic.

(** ** Sequences of contact operations and the predicates stated of them *)

Inductive operation : Type :=
| Create (body : ContactModel.t) (user : User.t) (now : Z)
| Update (contact_id : Z) (body : ContactModel.t) (user : User.t) (now : Z)
| Remove (contact_id : Z) (user : User.t).

(** [Create] goes through the route, with its check of the email;
    [Update] and [Remove] through the repository, which is all their
    routes do to the session. *)
Definition perform (op : operation) (db : Session) : Session :=
  match op with
  | Create body user now => snd (routes_contacts.create_contact body user now db)
  | Update contact_id body user now =>
      snd (repository_contacts.update contact_id body user now db)
  | Remove contact_id user => snd (repository_contacts.remove contact_id user db)
  end.

Definition run (ops : list operation) (db : Session) : Session :=
  List.fold_left (fun db op => perform op db) ops db.

Definition owned_by (user : User.t) (c : Contact.t) : Prop :=
  Contact.user_id c = User.id user.

(** The contacts an outcome carries. *)
Definition returned {A} (r : result (list A)) : list A :=
  match r with
  | Return l => l
  | Raise _ => []
  end.

(** What the primary key guarantees of the stored rows. *)
Definition primary_key (db : Session) : Prop :=
  List.NoDup (List.map Contact.id (contacts db)) /\
  List.Forall (fun c => Contact.id c < contacts_id_seq db) (contacts db).

Definition emails_of (user_id : Z) (rows : list Contact.t) : list string :=
  List.map Contact.email (List.filter (fun c => (Contact.user_id c =? user_id)%Z) rows).

Definition one_contact_per_email (db : Session) : Prop :=
  forall user_id : Z, List.NoDup (emails_of user_id (contacts db)).

(** ** Sample data *)

Module sample.

Definition alice : User.t :=
  {| User.id := 1; User.username := "alice"; User.email := "alice@example.com";
     User.password := "$2b$12$hash"; User.created_at := 0; User.refresh_token := None;
     User.avatar := None; User.confirmed := true |}.

Definition bob : User.t :=
  {| User.id := 2; User.username := "bob"; User.email := "bob@example.com";
     User.password := "$2b$12$hash"; User.created_at := 0; User.refresh_token := None;
     User.avatar := None; User.confirmed := true |}.

Definition alex : Contact.t :=
  {| Contact.id := 1; Contact.first_name := "Alex"; Contact.last_name := "King";
     Contact.email := "alex@example.com"; Contact.phone := "+380990000000";
     Contact.birthday := {| datetime.year := 1994; datetime.month := 5; datetime.day := 2 |};
     Contact.created_at := 100; Contact.updated_at := 100; Contact.user_id := 1 |}.

Definition anna : Contact.t :=
  {| Contact.id := 2; Contact.first_name := "Anna"; Contact.last_name := "Bell";
     Contact.email := "anna@example.com"; Contact.phone := "+380991234567";
     Contact.birthday := {| datetime.year := 1990; datetime.month := 1; datetime.day := 2 |};
     Contact.created_at := 200; Contact.updated_at := 200; Contact.user_id := 1 |}.

Definition db : Session :=
  {| contacts := [alex; anna]; users := [alice; bob]; contacts_id_seq := 3; commits := 2 |}.

Definition body (email : string) : ContactModel.t :=
  {| ContactModel.first_name := "Andy"; ContactModel.last_name := "Hall";
     ContactModel.email := email; ContactModel.phone := "+380997654321";
     ContactModel.birthday :=
       {| datetime.year := 1985; datetime.month := 7; datetime.day := 14 |} |}.

Definition may_1st : datetime.date :=
  {| datetime.year := 2023; datetime.month := 5; datetime.day := 1 |}.

Definition may_8th : datetime.date :=
  {| datetime.year := 2023; datetime.month := 5; datetime.day := 8 |}.

Definition december_28th : datetime.date :=
  {| datetime.year := 2023; datetime.month := 12; datetime.day := 28 |}.

Definition empty : Session :=
  {| contacts := []; users := [alice; bob]; contacts_id_seq := 1; commits := 0 |}.

Definition operations : list operation :=
  [ Create (body "andy@example.com") alice 100;
    Create (body "rita@example.com") alice 200;
    Create (body "andy@example.com") bob 300;
    Update 2 (body "andy@example.com") alice 400;
    Remove 1 alice;
    Update 2 (body "andy@example.com") alice 500 ].

End sample.

(** * Properties *)

(** ** Sanity of the calendar *)

Example plus_timedelta_year_end :
  datetime.plus_timedelta {| datetime.year := 2023; datetime.month := 12; datetime.day := 28 |} 7
  = Return {| datetime.year := 2024; datetime.month := 1; datetime.day := 4 |}.
Proof. reflexivity. Qed.

Example plus_timedelta_leap_february :
  datetime.plus_timedelta {| datetime.year := 2024; datetime.month := 2; datetime.day := 25 |} 7
  = Return {| datetime.year := 2024; datetime.month := 3; datetime.day := 3 |}.
Proof. reflexivity. Qed.

Example plus_timedelta_overflow :
  datetime.plus_timedelta {| datetime.year := 9999; datetime.month := 12; datetime.day := 25 |} 7
  = Raise OverflowError.
Proof. reflexivity. Qed.

Example plus_timedelta_february_1900 :
  datetime.plus_timedelta {| datetime.year := 1900; datetime.month := 2; datetime.day := 22 |} 7
  = Return {| datetime.year := 1900; datetime.month := 3; datetime.day := 1 |}.
Proof. reflexivity. Qed.

Lemma tomorrow_valid (d : datetime.date) :
  datetime.valid d -> datetime.year d < datetime.MAXYEAR ->
  let t := datetime.tomorrow d in
  1 <= datetime.month t <= 12 /\
  1 <= datetime.day t <= datetime.days_in_month (datetime.year t) (datetime.month t).
Proof.
  intros (Hy & Hm & Hd) Hmax. unfold datetime.tomorrow.
  destruct (Z.ltb_spec (datetime.day d) (datetime.days_in_month (datetime.year d) (datetime.month d))).
  - cbn. lia.
  - destruct (Z.ltb_spec (datetime.month d) 12); cbn.
    + split; [lia|]. unfold datetime.days_in_month.
      repeat match goal with |- context [if ?b then _ else _] => destruct b end; lia.
    + split; [lia|]. unfold datetime.days_in_month. cbn. lia.
Qed.

(** ** Helper lemmas on queries *)

Lemma filter_owned (user : User.t) (q : Contact.t -> bool) (rows : list Contact.t) :
  List.Forall (owned_by user)
    (List.filter (fun c => (Contact.user_id c =? User.id user)%Z && q c) rows).
Proof.
  apply List.Forall_forall. intros c Hc.
  apply List.filter_In in Hc as [_ Hc].
  apply andb_true_iff in Hc as [Hc _].
  apply Z.eqb_eq in Hc. exact Hc.
Qed.

Lemma first_Forall {A} (P : A -> Prop) (rows : list A) :
  List.Forall P rows -> List.Forall P (option_list (first rows)).
Proof.
  intros H. destruct rows as [|r rows]; cbn; [constructor|].
  inversion H; subst. repeat constructor. assumption.
Qed.

Lemma limit_offset_Forall {A} (P : A -> Prop) (n m : nat) (rows : list A) :
  List.Forall P rows -> List.Forall P (limit n (offset m rows)).
Proof.
  intros H. unfold limit, offset. apply Forall_take, Forall_drop, H.
Qed.

Lemma get_contact_by_id_None (contact_id : Z) (user : User.t) (db : Session) :
  (forall c, List.In c (contacts db) -> Contact.id c = contact_id ->
             Contact.user_id c <> User.id user) ->
  repository_contacts.get_contact_by_id contact_id user db = None.
Proof.
  intros H. unfold repository_contacts.get_contact_by_id.
  destruct (List.filter _ (contacts db)) as [|c l] eqn:E; [reflexivity|].
  assert (Hc : List.In c (c :: l)) by (left; reflexivity).
  rewrite <- E in Hc. apply List.filter_In in Hc as [Hin Hc].
  apply andb_true_iff in Hc as [Hu Hi].
  apply Z.eqb_eq in Hu, Hi. exfalso. exact (H c Hin Hi Hu).
Qed.

Lemma get_contact_by_id_Some (contact_id : Z) (user : User.t) (db : Session) (c : Contact.t) :
  repository_contacts.get_contact_by_id contact_id user db = Some c ->
  List.In c (contacts db) /\ Contact.id c = contact_id /\ owned_by user c.
Proof.
  unfold repository_contacts.get_contact_by_id. intros H.
  destruct (List.filter _ (contacts db)) as [|c' l] eqn:E; [discriminate|].
  cbn in H. injection H as ->.
  assert (Hc : List.In c (c :: l)) by (left; reflexivity).
  rewrite <- E in Hc. apply List.filter_In in Hc as [Hin Hc].
  apply andb_true_iff in Hc as [Hu Hi].
  apply Z.eqb_eq in Hu, Hi. auto.
Qed.

Lemma filter_sublist {A} (p : A -> bool) (rows : list A) :
  sublist (List.filter p rows) rows.
Proof.
  induction rows as [|r rows IH]; cbn.
  - constructor.
  - destruct (p r); [apply sublist_skip | apply sublist_cons]; exact IH.
Qed.

(** ** Contact queries *)

(** C1. For every user and every contact query of the repository
    ([get_contacts], [get_contact_by_id], [get_contact_by_email],
    [get_contact_by_first_name], [get_contact_by_last_name],
    [get_birthday]), every contact in the result has [user_id] equal to
    the user's id. *)
Theorem contact_queries_scoped_to_user (user : User.t) (db : Session) :
  (forall limit_ offset_ : nat,
      List.Forall (owned_by user) (repository_contacts.get_contacts limit_ offset_ user db)) /\
  (forall contact_id : Z,
      List.Forall (owned_by user)
        (option_list (repository_contacts.get_contact_by_id contact_id user db))) /\
  (forall contact_email : string,
      List.Forall (owned_by user)
        (option_list (repository_contacts.get_contact_by_email contact_email user db))) /\
  (forall contact_first_name : string,
      List.Forall (owned_by user)
        (repository_contacts.get_contact_by_first_name contact_first_name user db)) /\
  (forall contact_last_name : string,
      List.Forall (owned_by user)
        (repository_contacts.get_contact_by_last_name contact_last_name user db)) /\
  (forall today : datetime.date,
      List.Forall (owned_by user)
        (returned (repository_contacts.get_birthday today user db))).
Proof.
  repeat split; intros.
  - unfold repository_contacts.get_contacts. apply limit_offset_Forall.
    generalize (filter_owned user (fun _ => true) (contacts db)).
    erewrite List.filter_ext; [intros H; exact H|].
    intros c. cbn. now rewrite andb_true_r.
  - apply first_Forall, filter_owned.
  - apply first_Forall, filter_owned.
  - apply filter_owned.
  - apply filter_owned.
  - unfold repository_contacts.get_birthday.
    destruct (datetime.plus_timedelta today 7) as [next_week|e]; cbn; [|constructor].
    apply List.Forall_forall. intros c Hc.
    apply List.filter_In in Hc as [_ Hc].
    unfold repository_contacts.birthday_filter in Hc.
    repeat (apply andb_true_iff in Hc as [Hc _]).
    apply Z.eqb_eq in Hc. exact Hc.
Qed.

(** C7. [get_birthday] returns exactly those contacts of the user whose
    birthday has a day of month at least today's and at most that of
    today + 7 days, and a month equal to today's month: the fields are
    compared, not the dates. *)
Theorem get_birthday_compares_day_and_month
        (today next_week : datetime.date) (user : User.t) (db : Session) :
  datetime.plus_timedelta today 7 = Return next_week ->
  exists l : list Contact.t,
    repository_contacts.get_birthday today user db = Return l /\
    sublist l (contacts db) /\
    forall c : Contact.t,
      List.In c l <->
      List.In c (contacts db) /\ owned_by user c /\
      datetime.day today <= datetime.day (Contact.birthday c) /\
      datetime.day (Contact.birthday c) <= datetime.day next_week /\
      datetime.month (Contact.birthday c) = datetime.month today.
Proof.
  intros Hweek. unfold repository_contacts.get_birthday. rewrite Hweek.
  eexists. split; [reflexivity|]. split; [apply filter_sublist|].
  intros c. rewrite List.filter_In. unfold repository_contacts.birthday_filter, owned_by.
  rewrite !andb_true_iff, Z.geb_le, Z.leb_le, !Z.eqb_eq. tauto.
Qed.

Lemma get_birthday_compares_day_and_month_witness :
  exists l : list Contact.t,
    repository_contacts.get_birthday sample.may_1st sample.alice sample.db = Return l /\
    sublist l (contacts sample.db) /\
    forall c : Contact.t,
      List.In c l <->
      List.In c (contacts sample.db) /\ owned_by sample.alice c /\
      datetime.day sample.may_1st <= datetime.day (Contact.birthday c) /\
      datetime.day (Contact.birthday c) <= datetime.day sample.may_8th /\
      datetime.month (Contact.birthday c) = datetime.month sample.may_1st.
Proof.
  apply (get_birthday_compares_day_and_month sample.may_1st sample.may_8th).
  reflexivity.
Defined.

(** On 28 December the window is "day >= 28 and day <= 4" and selects
    nobody, whatever is stored: a birthday on 2 January is not found. *)
Example get_birthday_across_year_end (user : User.t) (db : Session) :
  repository_contacts.get_birthday sample.december_28th user db = Return [].
Proof.
  unfold repository_contacts.get_birthday.
  change (datetime.plus_timedelta sample.december_28th 7)
    with (Return {| datetime.year := 2024; datetime.month := 1; datetime.day := 4 |}).
  f_equal. induction (contacts db) as [|c l IH]; [reflexivity|].
  cbn [List.filter]. rewrite IH.
  replace (repository_contacts.birthday_filter _ _ user c) with false; [reflexivity|].
  unfold repository_contacts.birthday_filter. cbn.
  destruct (Z.geb_spec (datetime.day (Contact.birthday c)) 28);
    destruct (Z.leb_spec (datetime.day (Contact.birthday c)) 4);
    rewrite ?andb_false_r; cbn; try reflexivity; lia.
Qed.

Example get_birthday_sample :
  repository_contacts.get_birthday sample.may_1st sample.alice sample.db
  = Return [sample.alex].
Proof. reflexivity. Qed.

(** ** Update and delete of a missing or foreign contact *)

(** C2. For every contact id that does not exist or is owned by another
    user, the repository's [update] and [remove] return [None], the
    routes answer 404 "Not Found", and the session is left exactly as it
    was: no row changed or deleted, nothing committed. *)
Theorem update_remove_missing_or_foreign
        (contact_id : Z) (body : ContactModel.t) (user : User.t) (now : Z) (db : Session) :
  (forall c, List.In c (contacts db) -> Contact.id c = contact_id ->
             Contact.user_id c <> User.id user) ->
  repository_contacts.update contact_id body user now db = (Return None, db) /\
  repository_contacts.remove contact_id user db = (Return None, db) /\
  forall path_id : positive,
    Z.pos path_id = contact_id ->
    routes_contacts.update_contact body path_id user now db
    = (Raise (HTTPException 404 "Not Found"), db) /\
    routes_contacts.remove_contact path_id user db
    = (Raise (HTTPException 404 "Not Found"), db).
Proof.
  intros H. apply get_contact_by_id_None in H.
  assert (Hu : repository_contacts.update contact_id body user now db = (Return None, db))
    by (unfold repository_contacts.update; now rewrite H).
  assert (Hr : repository_contacts.remove contact_id user db = (Return None, db))
    by (unfold repository_contacts.remove; now rewrite H).
  repeat split; try assumption; subst contact_id.
  - unfold routes_contacts.update_contact, bind. now rewrite Hu.
  - unfold routes_contacts.remove_contact, bind. now rewrite Hr.
Qed.

Lemma update_remove_missing_or_foreign_witness :
  repository_contacts.update 1 (sample.body "andy@example.com") sample.bob 300 sample.db
  = (Return None, sample.db) /\
  repository_contacts.remove 1 sample.bob sample.db = (Return None, sample.db) /\
  routes_contacts.update_contact (sample.body "andy@example.com") 1%positive sample.bob 300
    sample.db
  = (Raise (HTTPException 404 "Not Found"), sample.db) /\
  routes_contacts.remove_contact 1%positive sample.bob sample.db
  = (Raise (HTTPException 404 "Not Found"), sample.db).
Proof.
  assert (H : forall c, List.In c (contacts sample.db) -> Contact.id c = 1 ->
                        Contact.user_id c <> User.id sample.bob).
  { intros c [<-|[<-|[]]] _; cbn; lia. }
  destruct (update_remove_missing_or_foreign 1 (sample.body "andy@example.com")
              sample.bob 300 sample.db H) as (Hu & Hr & Hroute).
  destruct (Hroute 1%positive eq_refl) as (Hur & Hrr).
  repeat split; assumption.
Defined.

(** ** Empty search results *)

(** C10. The search-by-first-name, search-by-last-name and
    upcoming-birthday endpoints answer 404 when the repository query
    yields an empty list, and return a non-empty list as it is. *)
Theorem search_routes_404_on_empty (user : User.t) (db : Session) :
  (forall contact_first_name : string,
      routes_contacts.search_contact_by_first_name contact_first_name user db
      = match repository_contacts.get_contact_by_first_name contact_first_name user db with
        | [] => Raise (HTTPException 404 "Not Found")
        | c :: l => Return (c :: l)
        end) /\
  (forall contact_last_name : string,
      routes_contacts.search_contact_by_last_name contact_last_name user db
      = match repository_contacts.get_contact_by_last_name contact_last_name user db with
        | [] => Raise (HTTPException 404 "Not Found")
        | c :: l => Return (c :: l)
        end) /\
  (forall today : datetime.date,
      routes_contacts.search_contact_7_days_birthday today user db
      = match repository_contacts.get_birthday today user db with
        | Return [] => Raise (HTTPException 404 "Not Found")
        | Return (c :: l) => Return (c :: l)
        | Raise e => Raise e
        end).
Proof.
  repeat split; intros.
  - unfold routes_contacts.search_contact_by_first_name.
    destruct (repository_contacts.get_contact_by_first_name _ _ _) as [|c l]; [reflexivity|].
    destruct (Z.ltb_spec (Z.of_nat (List.length (c :: l))) 1) as [Hlt|]; [|reflexivity].
    cbn [List.length] in Hlt. lia.
  - unfold routes_contacts.search_contact_by_last_name.
    destruct (repository_contacts.get_contact_by_last_name _ _ _) as [|c l]; [reflexivity|].
    destruct (Z.ltb_spec (Z.of_nat (List.length (c :: l))) 1) as [Hlt|]; [|reflexivity].
    cbn [List.length] in Hlt. lia.
  - unfold routes_contacts.search_contact_7_days_birthday.
    destruct (repository_contacts.get_birthday _ _ _) as [[|c l]|e]; try reflexivity.
    destruct (Z.ltb_spec (Z.of_nat (List.length (c :: l))) 1) as [Hlt|]; [|reflexivity].
    cbn [List.length] in Hlt. lia.
Qed.

Example search_by_first_name_found :
  routes_contacts.search_contact_by_first_name "Alex" sample.alice sample.db
  = Return [sample.alex].
Proof. reflexivity. Qed.

Example search_by_first_name_foreign :
  routes_contacts.search_contact_by_first_name "Alex" sample.bob sample.db
  = Raise (HTTPException 404 "Not Found").
Proof. reflexivity. Qed.

(** ** Creating a contact *)

Lemma get_contact_by_email_found (e : string) (user : User.t) (db : Session) :
  (exists c, List.In c (contacts db) /\ owned_by user c /\ Contact.email c = e) ->
  exists c', repository_contacts.get_contact_by_email e user db = Some c'.
Proof.
  intros (c & Hin & Hown & He). unfold repository_contacts.get_contact_by_email.
  destruct (List.filter _ (contacts db)) as [|c' l] eqn:E; [|eexists; reflexivity].
  exfalso. assert (Hc : List.In c []); [|destruct Hc].
  rewrite <- E. apply List.filter_In. split; [exact Hin|].
  apply andb_true_iff. split; [apply Z.eqb_eq, Hown | apply String.eqb_eq, He].
Qed.

Lemma email_held_false (e : string) (rows : list Contact.t) :
  table.email_held e rows = false <->
  forall c, List.In c rows -> Contact.email c <> e.
Proof.
  unfold table.email_held. split.
  - intros H c Hin He.
    assert (Ht : List.existsb (fun c => String.eqb (Contact.email c) e) rows = true);
      [|congruence].
    apply List.existsb_exists. exists c. split; [exact Hin | apply String.eqb_eq, He].
  - intros H. apply not_true_is_false. intros Ht.
    apply List.existsb_exists in Ht as (c & Hin & He).
    apply String.eqb_eq in He. exact (H c Hin He).
Qed.

Lemma other_rows_In (pk : Z) (rows : list Contact.t) (c : Contact.t) :
  List.In c (table.other_rows pk rows) <-> List.In c rows /\ Contact.id c <> pk.
Proof.
  unfold table.other_rows. rewrite List.filter_In, negb_true_iff, Z.eqb_neq. tauto.
Qed.

Lemma email_held_others_false (e : string) (pk : Z) (rows : list Contact.t) :
  table.email_held e (table.other_rows pk rows) = false <->
  forall c, List.In c rows -> Contact.id c <> pk -> Contact.email c <> e.
Proof.
  rewrite email_held_false. split.
  - intros H c Hin Hid. apply H, other_rows_In. auto.
  - intros H c Hc. apply other_rows_In in Hc as [Hin Hid]. auto.
Qed.

(** C3, as the code has it.  A request whose email is that of a contact
    the user already owns is rejected with 409 and nothing is stored; a
    request whose email no stored contact holds, of any user, creates the
    contact and returns it. *)
Theorem create_contact_duplicate_email
        (body : ContactModel.t) (user : User.t) (now : Z) (db : Session) :
  ((exists c, List.In c (contacts db) /\ owned_by user c /\
              Contact.email c = ContactModel.email body) ->
   routes_contacts.create_contact body user now db
   = (Raise (HTTPException 409 "Email is exists"), db)) /\
  ((forall c, List.In c (contacts db) -> Contact.email c <> ContactModel.email body) ->
   exists (c : Contact.t) (db' : Session),
     routes_contacts.create_contact body user now db = (Return c, db') /\
     contacts db' = (contacts db ++ [c])%list /\
     owned_by user c /\
     Contact.first_name c = ContactModel.first_name body /\
     Contact.last_name c = ContactModel.last_name body /\
     Contact.email c = ContactModel.email body /\
     Contact.phone c = ContactModel.phone body /\
     Contact.birthday c = ContactModel.birthday body).
Proof.
  split.
  - intros Hdup. apply get_contact_by_email_found in Hdup as [c' Hc'].
    unfold routes_contacts.create_contact, bind, query. now rewrite Hc'.
  - intros Hfree.
    assert (Hnone : repository_contacts.get_contact_by_email
                      (ContactModel.email body) user db = None).
    { unfold repository_contacts.get_contact_by_email.
      destruct (List.filter _ (contacts db)) as [|c l] eqn:E; [reflexivity|].
      assert (Hc : List.In c (c :: l)) by (left; reflexivity).
      rewrite <- E in Hc. apply List.filter_In in Hc as [Hin Hc].
      apply andb_true_iff in Hc as [_ He]. apply String.eqb_eq in He.
      destruct (Hfree c Hin He). }
    unfold routes_contacts.create_contact, bind, query. rewrite Hnone.
    unfold repository_contacts.create_contact. cbn [Contact.email].
    apply email_held_false in Hfree. rewrite Hfree.
    do 2 eexists. split; [reflexivity|]. cbn. unfold owned_by. cbn. auto 10.
Qed.

Lemma create_contact_duplicate_email_witness :
  routes_contacts.create_contact (sample.body "alex@example.com") sample.alice 300 sample.db
  = (Raise (HTTPException 409 "Email is exists"), sample.db) /\
  exists (c : Contact.t) (db' : Session),
    routes_contacts.create_contact (sample.body "andy@example.com") sample.bob 300 sample.db
    = (Return c, db') /\
    contacts db' = (contacts sample.db ++ [c])%list /\
    owned_by sample.bob c /\
    Contact.first_name c = "Andy" /\
    Contact.last_name c = "Hall" /\
    Contact.email c = "andy@example.com" /\
    Contact.phone c = "+380997654321" /\
    Contact.birthday c = ContactModel.birthday (sample.body "andy@example.com").
Proof.
  split.
  - apply (proj1 (create_contact_duplicate_email
                    (sample.body "alex@example.com") sample.alice 300 sample.db)).
    exists sample.alex. repeat split. left. reflexivity.
  - apply (proj2 (create_contact_duplicate_email
                    (sample.body "andy@example.com") sample.bob 300 sample.db)).
    intros c [<-|[<-|[]]]; cbn; discriminate.
Defined.

(** C3 as first stated fails.  The email column is unique over the whole
    table, while the route looks for the email among the caller's
    contacts only.  Bob owns no
    contact with Alex's email, yet his request to create one is not
    served: the INSERT fails at commit. *)
Lemma create_contact_foreign_email_counterexample :
  repository_contacts.get_contact_by_email "alex@example.com" sample.bob sample.db = None /\
  routes_contacts.create_contact (sample.body "alex@example.com") sample.bob 300 sample.db
  = (Raise IntegrityError, sample.db) /\
  ~ (exists (c : Contact.t) (db' : Session),
        routes_contacts.create_contact (sample.body "alex@example.com") sample.bob 300
          sample.db = (Return c, db')).
Proof.
  split; [reflexivity|]. split; [reflexivity|].
  intros (c & db' & H). discriminate H.
Qed.

(** ** Helper lemmas on the table *)

Lemma NoDup_map_filter {A B} (f : A -> B) (p : A -> bool) (l : list A) :
  List.NoDup (List.map f l) -> List.NoDup (List.map f (List.filter p l)).
Proof.
  induction l as [|a l IH]; cbn; intros H; [constructor|].
  inversion H as [|? ? Hnotin Hnodup]; subst.
  destruct (p a); cbn; [constructor|]; auto.
  intros Hin. apply Hnotin.
  apply List.in_map_iff in Hin as (x & Hx & Hin).
  apply List.filter_In in Hin as [Hin _].
  apply List.in_map_iff. eauto.
Qed.

Lemma filter_map_commute {A} (p : A -> bool) (g : A -> A) (l : list A) :
  (forall x, p (g x) = p x) ->
  List.filter p (List.map g l) = List.map g (List.filter p l).
Proof.
  intros Hp. induction l as [|a l IH]; cbn; [reflexivity|].
  rewrite Hp. destruct (p a); cbn; now rewrite IH.
Qed.

Lemma filter_filter_commute {A} (p q : A -> bool) (l : list A) :
  List.filter p (List.filter q l) = List.filter q (List.filter p l).
Proof.
  induction l as [|a l IH]; cbn; [reflexivity|].
  destruct (p a) eqn:Ep, (q a) eqn:Eq; cbn; rewrite ?Ep, ?Eq, IH; reflexivity.
Qed.

Section update_where_id.

Variables (pk : Z) (body : ContactModel.t) (now : Z).

Local Abbreviation set := (table.set_where_id pk body now).

Lemma set_id (c : Contact.t) : Contact.id (set c) = Contact.id c.
Proof. unfold table.set_where_id. now destruct (Contact.id c =? pk)%Z. Qed.

Lemma set_user_id (c : Contact.t) : Contact.user_id (set c) = Contact.user_id c.
Proof. unfold table.set_where_id. now destruct (Contact.id c =? pk)%Z. Qed.

Lemma set_other (c : Contact.t) : Contact.id c <> pk -> set c = c.
Proof. unfold table.set_where_id. intros H. apply Z.eqb_neq in H. now rewrite H. Qed.

Lemma set_same (c : Contact.t) : Contact.id c = pk -> set c = table.assign body now c.
Proof. unfold table.set_where_id. intros H. apply Z.eqb_eq in H. now rewrite H. Qed.

Lemma update_where_id_ids (rows : list Contact.t) :
  List.map Contact.id (table.update_where_id pk body now rows) = List.map Contact.id rows.
Proof.
  unfold table.update_where_id. rewrite List.map_map.
  apply List.map_ext. exact set_id.
Qed.

(** Under the primary key, the UPDATE rewrites one row and no other. *)
Lemma update_where_id_split (rows : list Contact.t) (c : Contact.t) :
  List.NoDup (List.map Contact.id rows) ->
  List.In c rows -> Contact.id c = pk ->
  exists front back : list Contact.t,
    rows = (front ++ c :: back)%list /\
    table.update_where_id pk body now rows = (front ++ table.assign body now c :: back)%list.
Proof.
  intros Hnodup Hin Hid.
  destruct (List.in_split _ _ Hin) as (front & back & ->).
  exists front, back. split; [reflexivity|].
  rewrite List.map_app in Hnodup. cbn in Hnodup.
  pose proof (List.NoDup_remove_2 _ _ _ Hnodup) as Hfresh.
  unfold table.update_where_id. rewrite List.map_app. cbn [List.map].
  rewrite (set_same c Hid). f_equal; [|f_equal].
  - rewrite <- (List.map_id front) at 2. apply List.map_ext_in.
    intros a Ha. apply set_other. intros Heq. apply Hfresh.
    apply List.in_or_app. left. apply List.in_map_iff. exists a. split; [congruence|exact Ha].
  - rewrite <- (List.map_id back) at 2. apply List.map_ext_in.
    intros a Ha. apply set_other. intros Heq. apply Hfresh.
    apply List.in_or_app. right. apply List.in_map_iff. exists a. split; [congruence|exact Ha].
Qed.

(** Emails stay distinct when the new email is held by no other row. *)
Lemma update_where_id_emails (l : list Contact.t) :
  List.NoDup (List.map Contact.id l) ->
  (forall c, List.In c l -> Contact.id c <> pk -> Contact.email c <> ContactModel.email body) ->
  List.NoDup (List.map Contact.email l) ->
  List.NoDup (List.map Contact.email (table.update_where_id pk body now l)).
Proof.
  unfold table.update_where_id.
  induction l as [|r l IH]; cbn; intros Hids Hfree Hemails; [constructor|].
  inversion Hids as [|? ? Hid_notin Hids']; subst.
  inversion Hemails as [|? ? Hemail_notin Hemails']; subst.
  constructor.
  - intros Hin. apply List.in_map_iff in Hin as (x' & Hx' & Hin).
    apply List.in_map_iff in Hin as (x & <- & Hin).
    assert (Hxr : Contact.id x <> Contact.id r).
    { intros Heq. apply Hid_notin. apply List.in_map_iff. eauto. }
    destruct (Z.eq_dec (Contact.id r) pk) as [Hr|Hr].
    + rewrite (set_same r Hr) in Hx'. cbn in Hx'.
      rewrite set_other in Hx' by congruence.
      apply (Hfree x); [right; exact Hin | congruence | exact Hx'].
    + rewrite (set_other r Hr) in Hx'.
      destruct (Z.eq_dec (Contact.id x) pk) as [Hx|Hx].
      * rewrite (set_same x Hx) in Hx'. cbn in Hx'.
        apply (Hfree r); [left; reflexivity | exact Hr | congruence].
      * rewrite (set_other x Hx) in Hx'.
        apply Hemail_notin. apply List.in_map_iff. eauto.
  - apply IH; [assumption | | assumption].
    intros c Hc. apply Hfree. right. exact Hc.
Qed.

Lemma update_where_id_emails_of (user_id : Z) (rows : list Contact.t) :
  emails_of user_id (table.update_where_id pk body now rows)
  = List.map Contact.email
      (table.update_where_id pk body now
         (List.filter (fun c => (Contact.user_id c =? user_id)%Z) rows)).
Proof.
  unfold emails_of, table.update_where_id.
  rewrite filter_map_commute by (intros x; now rewrite set_user_id).
  reflexivity.
Qed.

End update_where_id.

Lemma primary_key_injective (rows : list Contact.t) (a b : Contact.t) :
  List.NoDup (List.map Contact.id rows) ->
  List.In a rows -> List.In b rows -> Contact.id a = Contact.id b -> a = b.
Proof.
  intros Hnodup Ha Hb Hid.
  destruct (List.in_split _ _ Ha) as (front & back & ->).
  rewrite List.map_app in Hnodup. cbn in Hnodup.
  pose proof (List.NoDup_remove_2 _ _ _ Hnodup) as Hfresh.
  apply List.in_app_or in Hb as [Hb|[Hb|Hb]]; [exfalso| exact Hb |exfalso];
    apply Hfresh, List.in_or_app; [left|right];
    apply List.in_map_iff; exists b; auto.
Qed.

Lemma get_contact_by_id_owned (user : User.t) (db : Session) (c : Contact.t) :
  List.NoDup (List.map Contact.id (contacts db)) ->
  List.In c (contacts db) -> owned_by user c ->
  repository_contacts.get_contact_by_id (Contact.id c) user db = Some c.
Proof.
  intros Hnodup Hin Hown.
  destruct (repository_contacts.get_contact_by_id (Contact.id c) user db) as [c'|] eqn:E.
  - apply get_contact_by_id_Some in E as (Hin' & Hid & _).
    f_equal. exact (primary_key_injective _ _ _ Hnodup Hin' Hin Hid).
  - exfalso. unfold repository_contacts.get_contact_by_id in E.
    destruct (List.filter _ (contacts db)) as [|x l] eqn:F; [|discriminate].
    assert (Hc : List.In c []); [|destruct Hc].
    rewrite <- F. apply List.filter_In. split; [exact Hin|].
    apply andb_true_iff. split; [apply Z.eqb_eq, Hown | apply Z.eqb_refl].
Qed.

(** ** Updating a contact *)

(** C9, as the code has it.  For every stored contact the user owns, when
    no other stored contact holds the email of the request, [update] sets
    [first_name], [last_name], [email], [phone] and [birthday] to the
    values of the body and [updated_at] to the instant of the update (the
    column's [onupdate]); [id], [user_id] and [created_at] keep their
    values, and every other stored contact is unchanged: the table after
    is the table before with this one row replaced.  Nothing is said of
    where the row stands among the others. *)
Theorem update_changes_only_body_fields
        (body : ContactModel.t) (user : User.t) (now : Z) (db : Session) (c : Contact.t) :
  primary_key db ->
  List.In c (contacts db) -> owned_by user c ->
  (forall o, List.In o (contacts db) -> Contact.id o <> Contact.id c ->
             Contact.email o <> ContactModel.email body) ->
  exists (c' : Contact.t) (db' : Session) (others : list Contact.t),
    repository_contacts.update (Contact.id c) body user now db = (Return (Some c'), db') /\
    Permutation (contacts db) (c :: others) /\
    Permutation (contacts db') (c' :: others) /\
    users db' = users db /\
    Contact.first_name c' = ContactModel.first_name body /\
    Contact.last_name c' = ContactModel.last_name body /\
    Contact.email c' = ContactModel.email body /\
    Contact.phone c' = ContactModel.phone body /\
    Contact.birthday c' = ContactModel.birthday body /\
    Contact.updated_at c' = now /\
    Contact.id c' = Contact.id c /\
    Contact.user_id c' = Contact.user_id c /\
    Contact.created_at c' = Contact.created_at c.
Proof.
  intros [Hpk _] Hin Hown Hfree.
  unfold repository_contacts.update.
  rewrite (get_contact_by_id_owned user db c Hpk Hin Hown).
  apply email_held_others_false in Hfree. rewrite Hfree.
  destruct (update_where_id_split (Contact.id c) body now (contacts db) c Hpk Hin eq_refl)
    as (front & back & Hrows & Hrows').
  exists (table.assign body now c). eexists. exists (front ++ back)%list.
  split; [reflexivity|]. cbn [contacts users]. rewrite Hrows', Hrows.
  split; [symmetry; apply Permutation_middle|].
  split; [symmetry; apply Permutation_middle|].
  cbn. auto 15.
Qed.

Lemma update_changes_only_body_fields_witness :
  exists (c' : Contact.t) (db' : Session) (others : list Contact.t),
    repository_contacts.update 2 (sample.body "andy@example.com") sample.alice 300 sample.db
    = (Return (Some c'), db') /\
    Permutation (contacts sample.db) (sample.anna :: others) /\
    Permutation (contacts db') (c' :: others) /\
    users db' = users sample.db /\
    Contact.first_name c' = "Andy" /\
    Contact.last_name c' = "Hall" /\
    Contact.email c' = "andy@example.com" /\
    Contact.phone c' = "+380997654321" /\
    Contact.birthday c' = ContactModel.birthday (sample.body "andy@example.com") /\
    Contact.updated_at c' = 300 /\
    Contact.id c' = 2 /\
    Contact.user_id c' = 1 /\
    Contact.created_at c' = 200.
Proof.
  apply (update_changes_only_body_fields
           (sample.body "andy@example.com") sample.alice 300 sample.db sample.anna).
  - split.
    + cbn. repeat constructor; cbn; intuition lia.
    + cbn. repeat constructor; cbn; lia.
  - right. left. reflexivity.
  - reflexivity.
  - intros o [<-|[<-|[]]] _; cbn; [discriminate | congruence].
Defined.

(** C9 as first stated fails, twice over.  The email column is unique:
    when another stored contact already has the email of the request, the
    commit fails and the contact keeps all its fields.  And an update that
    goes through changes a sixth field: [updated_at] moves from 200 to the
    instant of the update. *)
Lemma update_taken_email_counterexample :
  List.In sample.anna (contacts sample.db) /\ owned_by sample.alice sample.anna /\
  repository_contacts.update 2 (sample.body "alex@example.com") sample.alice 300 sample.db
  = (Raise IntegrityError, sample.db) /\
  ~ (exists (c' : Contact.t) (db' : Session),
        repository_contacts.update 2 (sample.body "alex@example.com") sample.alice 300
          sample.db = (Return (Some c'), db') /\
        Contact.email c' = "alex@example.com") /\
  Contact.updated_at sample.anna = 200 /\
  exists (c' : Contact.t) (db' : Session),
    repository_contacts.update 2 (sample.body "andy@example.com") sample.alice 300 sample.db
    = (Return (Some c'), db') /\
    Contact.updated_at c' = 300.
Proof.
  split; [right; left; reflexivity|]. split; [reflexivity|]. split; [reflexivity|].
  split; [intros (c' & db' & H & _); discriminate H|].
  split; [reflexivity|]. do 2 eexists. split; reflexivity.
Qed.

(** ** One contact per email *)

Lemma emails_of_app (user_id : Z) (l1 l2 : list Contact.t) :
  emails_of user_id (l1 ++ l2) = (emails_of user_id l1 ++ emails_of user_id l2)%list.
Proof. unfold emails_of. now rewrite List.filter_app, List.map_app. Qed.

Lemma emails_of_In (user_id : Z) (rows : list Contact.t) (e : string) :
  List.In e (emails_of user_id rows) ->
  exists c, List.In c rows /\ Contact.email c = e.
Proof.
  unfold emails_of. intros H.
  apply List.in_map_iff in H as (c & He & Hc).
  apply List.filter_In in Hc as [Hc _]. eauto.
Qed.

Lemma NoDup_snoc {A} (l : list A) (x : A) :
  List.NoDup l -> ~ List.In x l -> List.NoDup (l ++ [x]).
Proof.
  intros Hl Hx. induction l as [|a l IH]; cbn.
  - repeat constructor. intros [].
  - inversion Hl as [|? ? Ha Hl']; subst. constructor.
    + intros Hin. apply List.in_app_or in Hin as [Hin|[->|[]]]; [auto|].
      apply Hx. left. reflexivity.
    + apply IH; [exact Hl'|]. intros Hin. apply Hx. right. exact Hin.
Qed.

Lemma create_contact_preserves
      (body : ContactModel.t) (user : User.t) (now : Z) (db : Session) :
  primary_key db -> one_contact_per_email db ->
  let db' := snd (repository_contacts.create_contact body user now db) in
  primary_key db' /\ one_contact_per_email db'.
Proof.
  intros [Hids Hseq] Hemails. unfold repository_contacts.create_contact.
  cbn [Contact.email].
  destruct (table.email_held _ _) eqn:Etaken; cbn [snd]; [split; [split|]; assumption|].
  assert (Hfresh : forall c, List.In c (contacts db) -> Contact.id c <> contacts_id_seq db).
  { intros c Hc. rewrite List.Forall_forall in Hseq. specialize (Hseq c Hc). lia. }
  rewrite email_held_false in Etaken.
  split; [split|]; cbn [contacts contacts_id_seq].
  - rewrite List.map_app. cbn. apply NoDup_snoc; [exact Hids|].
    intros Hin. apply List.in_map_iff in Hin as (c & Hc & Hin).
    exact (Hfresh c Hin Hc).
  - apply List.Forall_app. split.
    + eapply List.Forall_impl; [|exact Hseq]. cbn. intros; lia.
    + repeat constructor. cbn. lia.
  - intros u. cbn [contacts]. rewrite emails_of_app. unfold emails_of at 2. cbn.
    destruct (User.id user =? u)%Z; cbn; [|rewrite List.app_nil_r; apply Hemails].
    apply NoDup_snoc; [apply Hemails|].
    intros Hin. apply emails_of_In in Hin as (c & Hc & He).
    exact (Etaken c Hc He).
Qed.

Lemma update_preserves
      (contact_id : Z) (body : ContactModel.t) (user : User.t) (now : Z) (db : Session) :
  primary_key db -> one_contact_per_email db ->
  let db' := snd (repository_contacts.update contact_id body user now db) in
  primary_key db' /\ one_contact_per_email db'.
Proof.
  intros [Hids Hseq] Hemails. unfold repository_contacts.update.
  destruct (repository_contacts.get_contact_by_id contact_id user db) as [c|];
    cbn [snd]; [|split; [split|]; assumption].
  destruct (table.email_held _ _) eqn:Etaken; cbn [snd]; [split; [split|]; assumption|].
  rewrite email_held_others_false in Etaken.
  split; [split|]; cbn [contacts contacts_id_seq].
  - now rewrite update_where_id_ids.
  - apply List.Forall_forall. intros x Hx.
    unfold table.update_where_id in Hx.
    apply List.in_map_iff in Hx as (y & <- & Hy).
    rewrite set_id. rewrite List.Forall_forall in Hseq. exact (Hseq y Hy).
  - intros u. cbn [contacts]. rewrite update_where_id_emails_of.
    apply update_where_id_emails.
    + apply NoDup_map_filter, Hids.
    + intros x Hx. apply List.filter_In in Hx as [Hx _]. exact (Etaken x Hx).
    + apply Hemails.
Qed.

Lemma remove_preserves (contact_id : Z) (user : User.t) (db : Session) :
  primary_key db -> one_contact_per_email db ->
  let db' := snd (repository_contacts.remove contact_id user db) in
  primary_key db' /\ one_contact_per_email db'.
Proof.
  intros [Hids Hseq] Hemails. unfold repository_contacts.remove.
  destruct (repository_contacts.get_contact_by_id contact_id user db) as [c|];
    cbn [snd]; [|split; [split|]; assumption].
  split; [split|]; cbn [contacts contacts_id_seq];
    unfold table.delete_where_id, table.other_rows.
  - apply NoDup_map_filter, Hids.
  - apply List.Forall_forall. intros x Hx. apply List.filter_In in Hx as [Hx _].
    rewrite List.Forall_forall in Hseq. exact (Hseq x Hx).
  - intros u. cbn [contacts]. unfold emails_of, table.other_rows.
    rewrite filter_filter_commute.
    apply NoDup_map_filter, Hemails.
Qed.

Lemma perform_preserves (op : operation) (db : Session) :
  primary_key db -> one_contact_per_email db ->
  primary_key (perform op db) /\ one_contact_per_email (perform op db).
Proof.
  intros Hpk Hemails. destruct op as [body user now|contact_id body user now|contact_id user];
    cbn [perform].
  - unfold routes_contacts.create_contact, bind, query.
    destruct (repository_contacts.get_contact_by_email _ _ _); cbn [raise snd].
    + split; assumption.
    + destruct (repository_contacts.create_contact body user now db) as [r db'] eqn:E.
      pose proof (create_contact_preserves body user now db Hpk Hemails) as H.
      rewrite E in H. exact H.
  - apply update_preserves; assumption.
  - apply remove_preserves; assumption.
Qed.

(** C8. After any sequence of contact operations (create through the
    route, update, remove) every user still has at most one contact per
    email; in particular [update] never makes two contacts of a user
    share an email. *)
Theorem one_contact_per_email_invariant (ops : list operation) (db : Session) :
  primary_key db -> one_contact_per_email db ->
  one_contact_per_email (run ops db).
Proof.
  unfold run. revert db. induction ops as [|op ops IH]; cbn; intros db Hpk Hemails.
  - exact Hemails.
  - destruct (perform_preserves op db Hpk Hemails) as [Hpk' Hemails'].
    apply IH; assumption.
Qed.

Lemma one_contact_per_email_invariant_witness :
  one_contact_per_email (run sample.operations sample.empty).
Proof.
  apply one_contact_per_email_invariant.
  - split; cbn; constructor.
  - intros u. cbn. constructor.
Defined.

Example sample_operations_emails :
  List.map (fun c => (Contact.id c, Contact.user_id c, Contact.email c, Contact.updated_at c))
    (contacts (run sample.operations sample.empty))
  = [(2, 1, "andy@example.com", 500)].
Proof. reflexivity. Qed.

(** ** Token scopes *)

Section tokens.

Context `{JWT}.

Lemma scope_is_false (payload : gmap string json) (scope : string) :
  payload !! "scope" <> Some (JStr scope) -> Auth.scope_is payload scope = false.
Proof.
  unfold Auth.scope_is. intros Hne.
  destruct (payload !! "scope") as [[| |n|s]|]; cbn; try reflexivity.
  destruct (String.eqb_spec s scope) as [->|]; [|reflexivity].
  now destruct Hne.
Qed.

Lemma json_eqb_JStr (v : json) (s : string) :
  json_eqb v (JStr s) = true <-> v = JStr s.
Proof.
  destruct v as [| |n|s']; cbn; try (split; [discriminate|discriminate]).
  rewrite String.eqb_eq. split; congruence.
Qed.

(** C4. A token whose decoded scope claim is not 'access_token' makes
    [get_current_user] raise 401, and one whose decoded scope claim is not
    'refresh_token' makes [decode_refresh_token] raise 401; in particular
    neither verifier accepts a token of the other's scope.  (A payload with
    no scope claim at all is also refused by [get_current_user]; in
    [decode_refresh_token] it is a [KeyError].) *)
Theorem verifiers_reject_other_scope
        (token_ : token) (now : Z) (db : Session) (payload : gmap string json) :
  jwt_decode token_ SECRET_KEY [ALGORITHM] now = Some payload ->
  (payload !! "scope" <> Some (JStr "access_token") ->
   Auth.get_current_user token_ now db
   = Raise (HTTPException 401 "Could not validate credentials")) /\
  (forall scope : json,
      payload !! "scope" = Some scope -> scope <> JStr "refresh_token" ->
      Auth.decode_refresh_token token_ now
      = Raise (HTTPException 401 "Invalid scope for token")) /\
  (payload !! "scope" = Some (JStr "refresh_token") ->
   Auth.get_current_user token_ now db
   = Raise (HTTPException 401 "Could not validate credentials")) /\
  (payload !! "scope" = Some (JStr "access_token") ->
   Auth.decode_refresh_token token_ now
   = Raise (HTTPException 401 "Invalid scope for token")).
Proof.
  intros Hdecode.
  assert (Haccess : payload !! "scope" <> Some (JStr "access_token") ->
                    Auth.get_current_user token_ now db
                    = Raise (HTTPException 401 "Could not validate credentials")).
  { intros Hne. unfold Auth.get_current_user. rewrite Hdecode.
    now rewrite (scope_is_false payload "access_token" Hne). }
  assert (Hrefresh : forall scope : json,
             payload !! "scope" = Some scope -> scope <> JStr "refresh_token" ->
             Auth.decode_refresh_token token_ now
             = Raise (HTTPException 401 "Invalid scope for token")).
  { intros scope Hscope Hne. unfold Auth.decode_refresh_token.
    rewrite Hdecode, Hscope.
    destruct (json_eqb scope (JStr "refresh_token")) eqn:E; [|reflexivity].
    apply json_eqb_JStr in E. contradiction. }
  repeat split; try assumption.
  - intros Hscope. apply Haccess. rewrite Hscope. discriminate.
  - intros Hscope. apply (Hrefresh _ Hscope). discriminate.
Qed.

(** An unreadable token is refused by both verifiers with 401 as well. *)
Lemma verifiers_reject_undecodable (token_ : token) (now : Z) (db : Session) :
  jwt_decode token_ SECRET_KEY [ALGORITHM] now = None ->
  Auth.get_current_user token_ now db
  = Raise (HTTPException 401 "Could not validate credentials") /\
  Auth.decode_refresh_token token_ now
  = Raise (HTTPException 401 "Could not validate credentials").
Proof.
  intros Hdecode. unfold Auth.get_current_user, Auth.decode_refresh_token.
  now rewrite Hdecode.
Qed.

(** C5. Decoding a freshly created refresh token for subject [e], before
    it expires and with the same key, returns [e]. *)
Theorem refresh_token_round_trip (e : string) (issued now : Z) :
  now <= issued + Auth.days 7 ->
  Auth.decode_refresh_token
    (Auth.create_refresh_token {["sub" := JStr e]} None issued) now
  = Return (JStr e).
Proof.
  intros Hnow. unfold Auth.decode_refresh_token, Auth.create_refresh_token, Auth.stamp.
  cbn [Auth.expiry].
  rewrite (jwt_decode_encode e "refresh_token" issued (issued + Auth.days 7) now Hnow).
  rewrite lookup_insert_eq. cbn [json_eqb]. rewrite String.eqb_refl.
  do 3 (rewrite lookup_insert_ne by discriminate).
  now rewrite lookup_singleton_eq.
Qed.

(** An unreadable token gives 422.  A readable token of another scope
    gives no error: [get_email_from_token] returns [None]. *)
Lemma get_email_from_token_other_scope (token_ : token) (now : Z) :
  (jwt_decode token_ SECRET_KEY [ALGORITHM] now = None ->
   Auth.get_email_from_token token_ now
   = Raise (HTTPException 422 "Invalid token for email verification")) /\
  (forall (payload : gmap string json) (scope : json),
      jwt_decode token_ SECRET_KEY [ALGORITHM] now = Some payload ->
      payload !! "scope" = Some scope -> scope <> JStr "email_token" ->
      Auth.get_email_from_token token_ now = Return None).
Proof.
  split.
  - intros Hdecode. unfold Auth.get_email_from_token. now rewrite Hdecode.
  - intros payload scope Hdecode Hscope Hne. unfold Auth.get_email_from_token.
    rewrite Hdecode, Hscope.
    destruct (json_eqb scope (JStr "email_token")) eqn:E; [|reflexivity].
    apply json_eqb_JStr in E. contradiction.
Qed.

(** C6, at a refresh token.  Given to the email-confirmation verifier
    before it expires, a refresh token raises nothing: the verifier
    returns [None] where the scope mismatch should have been a 422. *)
Theorem get_email_from_token_of_refresh_token (e : string) (issued now : Z) :
  now <= issued + Auth.days 7 ->
  Auth.get_email_from_token
    (Auth.create_refresh_token {["sub" := JStr e]} None issued) now
  = Return None.
Proof.
  intros Hnow.
  eapply (proj2 (get_email_from_token_other_scope _ now)).
  - unfold Auth.create_refresh_token, Auth.stamp. cbn [Auth.expiry].
    exact (jwt_decode_encode e "refresh_token" issued (issued + Auth.days 7) now Hnow).
  - apply lookup_insert_eq.
  - discriminate.
Qed.

End tokens.

(** The token properties at the symbolic library. *)

Lemma verifiers_reject_other_scope_witness :
  @Auth.get_current_user symbolic.library
    (@Auth.create_email_token symbolic.library
       {["sub" := JStr "alice@example.com"]} 1000) 2000 sample.db
  = Raise (HTTPException 401 "Could not validate credentials") /\
  @Auth.decode_refresh_token symbolic.library
    (@Auth.create_email_token symbolic.library
       {["sub" := JStr "alice@example.com"]} 1000) 2000
  = Raise (HTTPException 401 "Invalid scope for token") /\
  @Auth.get_current_user symbolic.library
    (@Auth.create_refresh_token symbolic.library
       {["sub" := JStr "alice@example.com"]} None 1000) 2000 sample.db
  = Raise (HTTPException 401 "Could not validate credentials") /\
  @Auth.decode_refresh_token symbolic.library
    (@Auth.create_access_token symbolic.library
       {["sub" := JStr "alice@example.com"]} None 1000) 1500
  = Raise (HTTPException 401 "Invalid scope for token").
Proof.
  pose proof (@verifiers_reject_other_scope symbolic.library
                (@Auth.create_email_token symbolic.library
                   {["sub" := JStr "alice@example.com"]} 1000) 2000 sample.db
                (Auth.stamp {["sub" := JStr "alice@example.com"]} 1000
                   (1000 + Auth.days 3) "email_token")) as Hemail.
  pose proof (@verifiers_reject_other_scope symbolic.library
                (@Auth.create_refresh_token symbolic.library
                   {["sub" := JStr "alice@example.com"]} None 1000) 2000 sample.db
                (Auth.stamp {["sub" := JStr "alice@example.com"]} 1000
                   (1000 + Auth.days 7) "refresh_token")) as Hrefresh.
  pose proof (@verifiers_reject_other_scope symbolic.library
                (@Auth.create_access_token symbolic.library
                   {["sub" := JStr "alice@example.com"]} None 1000) 1500 sample.db
                (Auth.stamp {["sub" := JStr "alice@example.com"]} 1000
                   (1000 + Auth.minutes 15) "access_token")) as Haccess.
  split; [|split; [|split]].
  - refine (proj1 (Hemail _) _); vm_compute; [reflexivity | discriminate].
  - refine (proj1 (proj2 (Hemail _)) (JStr "email_token") _ _);
      [vm_compute; reflexivity | vm_compute; reflexivity | discriminate].
  - refine (proj1 (proj2 (proj2 (Hrefresh _))) _); vm_compute; reflexivity.
  - refine (proj2 (proj2 (proj2 (Haccess _))) _); vm_compute; reflexivity.
Defined.

Lemma refresh_token_round_trip_witness :
  @Auth.decode_refresh_token symbolic.library
    (@Auth.create_refresh_token symbolic.library
       {["sub" := JStr "alice@example.com"]} None 1000) 2000
  = Return (JStr "alice@example.com").
Proof.
  apply (@refresh_token_round_trip symbolic.library "alice@example.com" 1000 2000).
  unfold Auth.days. lia.
Defined.

Lemma get_email_from_token_of_refresh_token_witness :
  @Auth.get_email_from_token symbolic.library
    (@Auth.create_refresh_token symbolic.library
       {["sub" := JStr "alice@example.com"]} None 1000) 2000
  = Return None.
Proof.
  apply (@get_email_from_token_of_refresh_token symbolic.library "alice@example.com" 1000 2000).
  unfold Auth.days. lia.
Defined.

Example email_token_accepted :
  @Auth.get_email_from_token symbolic.library
    (@Auth.create_email_token symbolic.library
       {["sub" := JStr "alice@example.com"]} 1000) 2000
  = Return (Some (JStr "alice@example.com")).
Proof. vm_compute. reflexivity. Qed.

Example access_token_accepted :
  @Auth.get_current_user symbolic.library
    (@Auth.create_access_token symbolic.library
       {["sub" := JStr "alice@example.com"]} None 1000) 1500 sample.db
  = Return sample.alice.
Proof. vm_compute. reflexivity. Qed.

Example expired_refresh_token_refused :
  @Auth.decode_refresh_token symbolic.library
    (@Auth.create_refresh_token symbolic.library
       {["sub" := JStr "alice@example.com"]} (Some 60) 1000) 2000
  = Raise (HTTPException 401 "Could not validate credentials").
Proof. vm_compute. reflexivity. Qed.

(** * Further properties of the repository and the routes *)

(** The user on whose behalf an operation runs. *)
Definition actor (op : operation) : User.t :=
  match op with
  | Create _ user _ => user
  | Update _ _ user _ => user
  | Remove _ user => user
  end.

(** The stored contacts that do not belong to [user]. *)
Definition contacts_of_others (user : User.t) (rows : list Contact.t) : list Contact.t :=
  List.filter (fun c => negb (Contact.user_id c =? User.id user)%Z) rows.

(** What [unique=True] guarantees of the email column. *)
Definition unique_email (db : Session) : Prop :=
  List.NoDup (List.map Contact.email (contacts db)).

(** ** What a successful call tells *)

Lemma create_contact_route_Return
      (body : ContactModel.t) (user : User.t) (now : Z) (db db' : Session) (c : Contact.t) :
  routes_contacts.create_contact body user now db = (Return c, db') ->
  table.email_held (ContactModel.email body) (contacts db) = false /\
  Contact.id c = contacts_id_seq db /\
  Contact.email c = ContactModel.email body /\
  owned_by user c /\
  contacts db' = (contacts db ++ [c])%list.
Proof.
  unfold routes_contacts.create_contact, bind, query.
  destruct (repository_contacts.get_contact_by_email _ _ _); cbn [raise]; [discriminate|].
  unfold repository_contacts.create_contact. cbn [Contact.email].
  destruct (table.email_held _ _); [discriminate|].
  intros [= <- <-]. cbn. unfold owned_by. cbn. auto.
Qed.


Lemma filter_none {A} (p : A -> bool) (l : list A) :
  (forall x, List.In x l -> p x = false) -> List.filter p l = [].
Proof.
  intros H. induction l as [|a l IH]; cbn; [reflexivity|].
  rewrite (H a) by (left; reflexivity). apply IH. intros x Hx. apply H. right. exact Hx.
Qed.

(** ** Create, then look up *)

(** A contact the route has just created is found again by its owner,
    both under the id it was given and under its email. *)
Theorem created_contact_is_found
        (body : ContactModel.t) (user : User.t) (now : Z) (db db' : Session) (c : Contact.t) :
  primary_key db ->
  routes_contacts.create_contact body user now db = (Return c, db') ->
  repository_contacts.get_contact_by_id (Contact.id c) user db' = Some c /\
  repository_contacts.get_contact_by_email (ContactModel.email body) user db' = Some c.
Proof.
  intros [_ Hseq] Hcreate.
  apply create_contact_route_Return in Hcreate as (Hfree & Hid & Hemail & Hown & Hrows).
  rewrite email_held_false in Hfree.
  unfold repository_contacts.get_contact_by_id, repository_contacts.get_contact_by_email.
  rewrite Hrows, !List.filter_app. split.
  - rewrite filter_none.
    + cbn. rewrite Hown, !Z.eqb_refl. reflexivity.
    + intros x Hx. rewrite List.Forall_forall in Hseq. specialize (Hseq x Hx).
      apply andb_false_iff. right. apply Z.eqb_neq. lia.
  - rewrite filter_none.
    + cbn. rewrite Hown, Z.eqb_refl, Hemail, String.eqb_refl. reflexivity.
    + intros x Hx. apply andb_false_iff. right. apply String.eqb_neq. exact (Hfree x Hx).
Qed.

Lemma created_contact_is_found_witness :
  exists c db',
    routes_contacts.create_contact (sample.body "andy@example.com") sample.alice 300 sample.db
    = (Return c, db') /\
    repository_contacts.get_contact_by_id (Contact.id c) sample.alice db' = Some c /\
    repository_contacts.get_contact_by_email "andy@example.com" sample.alice db' = Some c.
Proof.
  do 2 eexists. split; [reflexivity|].
  apply (created_contact_is_found (sample.body "andy@example.com") sample.alice 300 sample.db).
  - split; cbn; repeat constructor; cbn; intuition lia.
  - reflexivity.
Defined.



(** ** Looking up one contact *)

(** The two routes that return one contact answer 404 exactly when the
    caller owns no stored contact with that id (or that email); what they
    return otherwise is a stored contact of the caller with that id (or
    that email). *)
Theorem lookup_routes_found_or_404 (user : User.t) (db : Session) :
  (forall contact_id : positive,
      match routes_contacts.get_contact contact_id user db with
      | Return c =>
          List.In c (contacts db) /\ owned_by user c /\ Contact.id c = Z.pos contact_id
      | Raise e =>
          e = HTTPException 404 "Not Found" /\
          forall c, List.In c (contacts db) -> owned_by user c ->
                    Contact.id c <> Z.pos contact_id
      end) /\
  (forall contact_email : string,
      match routes_contacts.search_contact_by_email contact_email user db with
      | Return c =>
          List.In c (contacts db) /\ owned_by user c /\ Contact.email c = contact_email
      | Raise e =>
          e = HTTPException 404 "Not Found" /\
          forall c, List.In c (contacts db) -> owned_by user c ->
                    Contact.email c <> contact_email
      end).
Proof.
  split.
  - intros contact_id. unfold routes_contacts.get_contact.
    destruct (repository_contacts.get_contact_by_id _ _ _) as [c|] eqn:E.
    + apply get_contact_by_id_Some in E. tauto.
    + split; [reflexivity|]. intros c Hin Hown Hid.
      unfold repository_contacts.get_contact_by_id in E.
      destruct (List.filter _ (contacts db)) as [|x l] eqn:F; [|discriminate].
      assert (Hc : List.In c []); [|destruct Hc].
      rewrite <- F. apply List.filter_In. split; [exact Hin|].
      apply andb_true_iff. split; apply Z.eqb_eq; assumption.
  - intros contact_email. unfold routes_contacts.search_contact_by_email.
    destruct (repository_contacts.get_contact_by_email _ _ _) as [c|] eqn:E.
    + unfold repository_contacts.get_contact_by_email in E.
      destruct (List.filter _ (contacts db)) as [|x l] eqn:F; [discriminate|].
      cbn in E. injection E as ->.
      assert (Hc : List.In c (c :: l)) by (left; reflexivity).
      rewrite <- F in Hc. apply List.filter_In in Hc as [Hin Hc].
      apply andb_true_iff in Hc as [Hu He].
      apply Z.eqb_eq in Hu. apply String.eqb_eq in He. auto.
    + split; [reflexivity|]. intros c Hin Hown He.
      destruct (get_contact_by_email_found contact_email user db) as [c' Hc']; [eauto|].
      congruence.
Qed.

(** ** Remove *)

Lemma other_rows_split (rows : list Contact.t) (c : Contact.t) :
  List.NoDup (List.map Contact.id rows) -> List.In c rows ->
  exists front back : list Contact.t,
    rows = (front ++ c :: back)%list /\
    table.other_rows (Contact.id c) rows = (front ++ back)%list.
Proof.
  intros Hnodup Hin.
  destruct (List.in_split _ _ Hin) as (front & back & ->).
  exists front, back. split; [reflexivity|].
  rewrite List.map_app in Hnodup. cbn in Hnodup.
  pose proof (List.NoDup_remove_2 _ _ _ Hnodup) as Hfresh.
  assert (Hkeep : forall l, (forall a, List.In a l -> List.In a (front ++ back)%list) ->
                            table.other_rows (Contact.id c) l = l).
  { intros l Hl. unfold table.other_rows. induction l as [|a l IH]; cbn; [reflexivity|].
    replace (Contact.id a =? Contact.id c)%Z with false.
    - cbn. f_equal. apply IH. intros x Hx. apply Hl. right. exact Hx.
    - symmetry. apply Z.eqb_neq. intros Heq. apply Hfresh.
      rewrite <- List.map_app. apply List.in_map_iff. exists a.
      split; [exact Heq | apply Hl; left; reflexivity]. }
  unfold table.other_rows in *. rewrite List.filter_app. cbn [List.filter].
  rewrite Z.eqb_refl. cbn [negb].
  rewrite (Hkeep front), (Hkeep back); [reflexivity| |];
    intros a Ha; apply List.in_or_app; auto.
Qed.

(** Removing a stored contact of the caller returns that contact and
    takes exactly that row out of the table: the rows before it and after
    it stay, in their order, and the users are untouched. *)
Theorem remove_deletes_one_row (user : User.t) (db : Session) (c : Contact.t) :
  primary_key db -> List.In c (contacts db) -> owned_by user c ->
  exists (db' : Session) (front back : list Contact.t),
    repository_contacts.remove (Contact.id c) user db = (Return (Some c), db') /\
    contacts db = (front ++ c :: back)%list /\
    contacts db' = (front ++ back)%list /\
    users db' = users db.
Proof.
  intros [Hpk _] Hin Hown. unfold repository_contacts.remove.
  rewrite (get_contact_by_id_owned user db c Hpk Hin Hown).
  destruct (other_rows_split (contacts db) c Hpk Hin) as (front & back & Hrows & Hrows').
  eexists. exists front, back. split; [reflexivity|].
  cbn. unfold table.delete_where_id. auto.
Qed.

Lemma remove_deletes_one_row_witness :
  exists (db' : Session) (front back : list Contact.t),
    repository_contacts.remove 1 sample.alice sample.db = (Return (Some sample.alex), db') /\
    contacts sample.db = (front ++ sample.alex :: back)%list /\
    contacts db' = (front ++ back)%list /\
    users db' = users sample.db.
Proof.
  apply (remove_deletes_one_row sample.alice sample.db sample.alex).
  - split; cbn; repeat constructor; cbn; intuition lia.
  - left. reflexivity.
  - reflexivity.
Defined.

(** After [remove], whatever it did, the caller has no contact with that
    id: looking it up finds nothing, a second [remove] returns [None] and
    changes nothing, and the route answers 404. *)
Theorem remove_then_not_found (contact_id : positive) (user : User.t) (db : Session) :
  let db' := snd (repository_contacts.remove (Z.pos contact_id) user db) in
  repository_contacts.get_contact_by_id (Z.pos contact_id) user db' = None /\
  repository_contacts.remove (Z.pos contact_id) user db' = (Return None, db') /\
  routes_contacts.get_contact contact_id user db' = Raise (HTTPException 404 "Not Found") /\
  routes_contacts.remove_contact contact_id user db'
  = (Raise (HTTPException 404 "Not Found"), db').
Proof.
  intros db'.
  assert (Hnone : repository_contacts.get_contact_by_id (Z.pos contact_id) user db' = None).
  { subst db'. unfold repository_contacts.remove.
    destruct (repository_contacts.get_contact_by_id (Z.pos contact_id) user db) as [c|] eqn:E;
      cbn [snd]; [|exact E].
    apply get_contact_by_id_Some in E as (_ & Hid & _).
    apply get_contact_by_id_None. cbn [contacts]. unfold table.delete_where_id.
    intros x Hx Hxid. apply other_rows_In in Hx as [_ Hne]. congruence. }
  assert (Hremove : repository_contacts.remove (Z.pos contact_id) user db' = (Return None, db')).
  { unfold repository_contacts.remove at 1. now rewrite Hnone. }
  repeat split; try assumption.
  - unfold routes_contacts.get_contact. now rewrite Hnone.
  - unfold routes_contacts.remove_contact, bind. now rewrite Hremove.
Qed.

(** ** Update, then look up *)



(** A contact can be updated while keeping its email: its own row is not
    a conflict.  With emails unique in the table, such an update of a
    stored contact of the caller always goes through. *)
Theorem update_keeping_email_succeeds
        (body : ContactModel.t) (user : User.t) (now : Z) (db : Session) (c : Contact.t) :
  primary_key db -> unique_email db ->
  List.In c (contacts db) -> owned_by user c ->
  ContactModel.email body = Contact.email c ->
  exists db' : Session,
    repository_contacts.update (Contact.id c) body user now db
    = (Return (Some (table.assign body now c)), db').
Proof.
  intros [Hpk _] Hunique Hin Hown Hsame. unfold repository_contacts.update.
  rewrite (get_contact_by_id_owned user db c Hpk Hin Hown).
  replace (table.email_held _ _) with false; [eexists; reflexivity|].
  symmetry. apply email_held_others_false. intros o Ho Hid Hemail.
  apply Hid. f_equal.
  destruct (List.in_split _ _ Ho) as (front & back & Hrows).
  unfold unique_email in Hunique. rewrite Hrows, List.map_app in Hunique. cbn in Hunique.
  pose proof (List.NoDup_remove_2 _ _ _ Hunique) as Hfresh.
  rewrite Hrows in Hin.
  apply List.in_app_or in Hin as [Hc|[Hc|Hc]]; [exfalso| exact Hc |exfalso];
    apply Hfresh, List.in_or_app; [left|right];
    apply List.in_map_iff; exists c; split; congruence.
Qed.

Lemma update_keeping_email_succeeds_witness :
  exists db' : Session,
    repository_contacts.update 2 (sample.body "anna@example.com") sample.alice 300 sample.db
    = (Return (Some (table.assign (sample.body "anna@example.com") 300 sample.anna)), db').
Proof.
  apply (update_keeping_email_succeeds
           (sample.body "anna@example.com") sample.alice 300 sample.db sample.anna).
  - split; cbn; repeat constructor; cbn; intuition lia.
  - unfold unique_email. cbn. repeat constructor; cbn; intuition discriminate.
  - right. left. reflexivity.
  - reflexivity.
  - reflexivity.
Defined.

(** ** Writes stay within the caller's contacts *)

Lemma filter_map_fixed {A} (p : A -> bool) (g : A -> A) (l : list A) :
  (forall x, List.In x l -> p (g x) = p x) ->
  (forall x, List.In x l -> p x = true -> g x = x) ->
  List.filter p (List.map g l) = List.filter p l.
Proof.
  intros Hp Hg. induction l as [|a l IH]; cbn; [reflexivity|].
  rewrite (Hp a) by (left; reflexivity).
  rewrite IH;
    [ | intros x Hx; apply Hp; right; exact Hx | intros x Hx; apply Hg; right; exact Hx ].
  destruct (p a) eqn:E; [|reflexivity].
  rewrite (Hg a); [reflexivity | left; reflexivity | exact E].
Qed.

Lemma filter_filter_kept {A} (p q : A -> bool) (l : list A) :
  (forall x, List.In x l -> p x = true -> q x = true) ->
  List.filter p (List.filter q l) = List.filter p l.
Proof.
  intros H. induction l as [|a l IH]; cbn; [reflexivity|].
  rewrite <- IH by (intros x Hx; apply H; right; exact Hx).
  destruct (q a) eqn:Eq; cbn; [reflexivity|].
  destruct (p a) eqn:Ep; [|reflexivity].
  rewrite (H a) in Eq; [discriminate | left; reflexivity | exact Ep].
Qed.

(** No operation touches the contacts of anyone but its caller: whether
    it creates, updates or removes, succeeds or fails, the contacts of all
    other users are afterwards the same rows in the same order, and the
    users table is the same. *)
Theorem writes_leave_other_users_alone (op : operation) (db : Session) :
  primary_key db ->
  contacts_of_others (actor op) (contacts (perform op db))
  = contacts_of_others (actor op) (contacts db) /\
  users (perform op db) = users db.
Proof.
  intros [Hpk _].
  destruct op as [body user now|contact_id body user now|contact_id user];
    cbn [perform actor].
  - unfold routes_contacts.create_contact, bind, query.
    destruct (repository_contacts.get_contact_by_email _ _ _); cbn [raise snd]; [auto|].
    unfold repository_contacts.create_contact. cbn [Contact.email].
    destruct (table.email_held _ _); cbn [snd contacts users]; [auto|].
    split; [|reflexivity]. unfold contacts_of_others.
    rewrite List.filter_app. cbn. rewrite Z.eqb_refl. cbn. apply List.app_nil_r.
  - unfold repository_contacts.update.
    destruct (repository_contacts.get_contact_by_id contact_id user db) as [c|] eqn:E;
      cbn [snd]; [|auto].
    apply get_contact_by_id_Some in E as (Hin & Hid & Hown).
    destruct (table.email_held _ _); cbn [snd contacts users]; [auto|].
    split; [|reflexivity]. unfold contacts_of_others, table.update_where_id.
    apply filter_map_fixed.
    + intros x _. now rewrite set_user_id.
    + intros x Hx Hother. apply set_other. intros Hxid.
      assert (x = c) by (apply (primary_key_injective (contacts db)); auto).
      subst x. rewrite Hown, Z.eqb_refl in Hother. discriminate.
  - unfold repository_contacts.remove.
    destruct (repository_contacts.get_contact_by_id contact_id user db) as [c|] eqn:E;
      cbn [snd]; [|auto].
    apply get_contact_by_id_Some in E as (Hin & Hid & Hown).
    cbn [contacts users]. split; [|reflexivity].
    unfold contacts_of_others, table.delete_where_id, table.other_rows.
    apply filter_filter_kept. intros x Hx Hother.
    apply negb_true_iff, Z.eqb_neq. intros Hxid.
    assert (x = c) by (apply (primary_key_injective (contacts db)); auto).
    subst x. rewrite Hown, Z.eqb_refl in Hother. discriminate.
Qed.

Lemma writes_leave_other_users_alone_witness :
  contacts_of_others sample.bob (contacts (perform (Remove 1 sample.bob) sample.db))
  = [sample.alex; sample.anna] /\
  contacts_of_others sample.bob
    (contacts (perform (Update 2 (sample.body "andy@example.com") sample.bob 300) sample.db))
  = [sample.alex; sample.anna].
Proof.
  split.
  - refine (proj1 (writes_leave_other_users_alone (Remove 1 sample.bob) sample.db _)).
    split; cbn; repeat constructor; cbn; intuition lia.
  - refine (proj1 (writes_leave_other_users_alone
                     (Update 2 (sample.body "andy@example.com") sample.bob 300)
                     sample.db _)).
    split; cbn; repeat constructor; cbn; intuition lia.
Defined.

(** ** Pages of [get_contacts] *)

(** A page holds at most [limit] contacts, all of them stored; the page
    of size [m] that starts where a page of size [n] ends completes it to
    the page of size [n + m]; and a limit as large as the table returns
    every contact of the user. *)
Theorem get_contacts_pages (user : User.t) (db : Session) :
  (forall limit_ offset_ : nat,
      (List.length (repository_contacts.get_contacts limit_ offset_ user db) <= limit_)%nat /\
      sublist (repository_contacts.get_contacts limit_ offset_ user db) (contacts db)) /\
  (forall n m offset_ : nat,
      (repository_contacts.get_contacts n offset_ user db
       ++ repository_contacts.get_contacts m (offset_ + n) user db)%list
      = repository_contacts.get_contacts (n + m) offset_ user db) /\
  (forall limit_ : nat,
      (List.length (contacts db) <= limit_)%nat ->
      repository_contacts.get_contacts limit_ 0 user db
      = List.filter (fun c => (Contact.user_id c =? User.id user)%Z) (contacts db)).
Proof.
  unfold repository_contacts.get_contacts, limit, offset. repeat split.
  - apply List.firstn_le_length.
  - etransitivity; [apply sublist_take|].
    etransitivity; [apply sublist_drop|]. apply filter_sublist.
  - intros n m offset_. rewrite <- drop_drop. apply take_take_drop.
  - intros limit_ Hlen. cbn [List.skipn]. apply take_ge.
    etransitivity; [|exact Hlen]. apply sublist_length, filter_sublist.
Qed.

Lemma get_contacts_pages_witness :
  repository_contacts.get_contacts 5 0 sample.alice sample.db = [sample.alex; sample.anna] /\
  (repository_contacts.get_contacts 1 0 sample.alice sample.db
   ++ repository_contacts.get_contacts 1 1 sample.alice sample.db)%list
  = [sample.alex; sample.anna].
Proof.
  split.
  - refine (proj2 (proj2 (get_contacts_pages sample.alice sample.db)) 5%nat _).
    cbn. lia.
  - exact (proj1 (proj2 (get_contacts_pages sample.alice sample.db)) 1%nat 1%nat 0%nat).
Defined.

(** ** What every sequence of operations keeps *)

Lemma perform_primary_key (op : operation) (db : Session) :
  primary_key db ->
  primary_key (perform op db) /\
  contacts_id_seq db <= contacts_id_seq (perform op db).
Proof.
  intros [Hids Hseq].
  destruct op as [body user now|contact_id body user now|contact_id user]; cbn [perform].
  - unfold routes_contacts.create_contact, bind, query.
    destruct (repository_contacts.get_contact_by_email _ _ _); cbn [raise snd];
      [split; [split; assumption | lia]|].
    unfold repository_contacts.create_contact. cbn [Contact.email].
    destruct (table.email_held _ _); cbn [snd contacts contacts_id_seq];
      [split; [split; assumption | lia]|].
    split; [split|lia]; cbn [contacts contacts_id_seq].
    + rewrite List.map_app. cbn. apply NoDup_snoc; [exact Hids|].
      intros Hin. apply List.in_map_iff in Hin as (c & Hc & Hin).
      rewrite List.Forall_forall in Hseq. specialize (Hseq c Hin). lia.
    + apply List.Forall_app. split.
      * eapply List.Forall_impl; [|exact Hseq]. cbn. intros; lia.
      * repeat constructor. cbn. lia.
  - unfold repository_contacts.update.
    destruct (repository_contacts.get_contact_by_id contact_id user db) as [c|];
      cbn [snd]; [|split; [split; assumption | lia]].
    destruct (table.email_held _ _); cbn [snd contacts contacts_id_seq];
      [split; [split; assumption | lia]|].
    split; [split|lia]; cbn [contacts contacts_id_seq].
    + now rewrite update_where_id_ids.
    + apply List.Forall_forall. intros x Hx. unfold table.update_where_id in Hx.
      apply List.in_map_iff in Hx as (y & <- & Hy).
      rewrite set_id. rewrite List.Forall_forall in Hseq. exact (Hseq y Hy).
  - unfold repository_contacts.remove.
    destruct (repository_contacts.get_contact_by_id contact_id user db) as [c|];
      cbn [snd contacts contacts_id_seq]; [|split; [split; assumption | lia]].
    unfold table.delete_where_id, table.other_rows.
    split; [split|lia]; cbn [contacts contacts_id_seq].
    + apply NoDup_map_filter, Hids.
    + apply List.Forall_forall. intros x Hx. apply List.filter_In in Hx as [Hx _].
      rewrite List.Forall_forall in Hseq. exact (Hseq x Hx).
Qed.

Lemma perform_unique_email (op : operation) (db : Session) :
  primary_key db -> unique_email db -> unique_email (perform op db).
Proof.
  intros [Hids Hseq] Hunique. unfold unique_email in *.
  destruct op as [body user now|contact_id body user now|contact_id user]; cbn [perform].
  - unfold routes_contacts.create_contact, bind, query.
    destruct (repository_contacts.get_contact_by_email _ _ _); cbn [raise snd];
      [assumption|].
    unfold repository_contacts.create_contact. cbn [Contact.email].
    destruct (table.email_held _ _) eqn:Eheld; cbn [snd contacts]; [assumption|].
    rewrite email_held_false in Eheld.
    rewrite List.map_app. cbn. apply NoDup_snoc; [exact Hunique|].
    intros Hin. apply List.in_map_iff in Hin as (c & Hc & Hin). exact (Eheld c Hin Hc).
  - unfold repository_contacts.update.
    destruct (repository_contacts.get_contact_by_id contact_id user db) as [c|];
      cbn [snd]; [|assumption].
    destruct (table.email_held _ _) eqn:Eheld; cbn [snd contacts]; [assumption|].
    rewrite email_held_others_false in Eheld.
    apply update_where_id_emails; assumption.
  - unfold repository_contacts.remove.
    destruct (repository_contacts.get_contact_by_id contact_id user db) as [c|];
      cbn [snd contacts]; [|assumption].
    unfold table.delete_where_id, table.other_rows. apply NoDup_map_filter, Hunique.
Qed.

(** Whatever the operations and whoever runs them, no two stored contacts
    ever share an id, and no two share an email, even across users. *)
Theorem ids_and_emails_stay_unique (ops : list operation) (db : Session) :
  primary_key db -> unique_email db ->
  primary_key (run ops db) /\ unique_email (run ops db).
Proof.
  unfold run. revert db. induction ops as [|op ops IH]; cbn; intros db Hpk Hunique.
  - split; assumption.
  - apply IH.
    + apply perform_primary_key, Hpk.
    + apply perform_unique_email; assumption.
Qed.

Lemma ids_and_emails_stay_unique_witness :
  primary_key (run sample.operations sample.empty) /\
  unique_email (run sample.operations sample.empty).
Proof.
  apply ids_and_emails_stay_unique.
  - split; cbn; constructor.
  - unfold unique_email. cbn. constructor.
Defined.

Lemma perform_keeps_contact (op : operation) (db : Session) (c : Contact.t) :
  primary_key db -> List.In c (contacts db) ->
  (forall user, op = Remove (Contact.id c) user -> User.id user <> Contact.user_id c) ->
  exists c' : Contact.t,
    List.In c' (contacts (perform op db)) /\
    Contact.id c' = Contact.id c /\
    Contact.user_id c' = Contact.user_id c /\
    Contact.created_at c' = Contact.created_at c.
Proof.
  intros [Hpk _] Hin Hkept.
  destruct op as [body user now|contact_id body user now|contact_id user]; cbn [perform].
  - exists c. split; [|auto].
    unfold routes_contacts.create_contact, bind, query.
    destruct (repository_contacts.get_contact_by_email _ _ _); cbn [raise snd];
      [exact Hin|].
    unfold repository_contacts.create_contact. cbn [Contact.email].
    destruct (table.email_held _ _); cbn [snd contacts]; [exact Hin|].
    apply List.in_or_app. left. exact Hin.
  - unfold repository_contacts.update.
    destruct (repository_contacts.get_contact_by_id contact_id user db) as [c0|];
      cbn [snd]; [|exists c; auto].
    destruct (table.email_held _ _); cbn [snd contacts]; [exists c; auto|].
    exists (table.set_where_id (Contact.id c0) body now c).
    rewrite set_id, set_user_id. repeat split.
    + unfold table.update_where_id. apply List.in_map. exact Hin.
    + unfold table.set_where_id. now destruct (Contact.id c =? Contact.id c0)%Z.
  - exists c. split; [|auto]. unfold repository_contacts.remove.
    destruct (repository_contacts.get_contact_by_id contact_id user db) as [c0|] eqn:E;
      cbn [snd contacts]; [|exact Hin].
    apply get_contact_by_id_Some in E as (Hin0 & Hid0 & Hown0).
    unfold table.delete_where_id. apply other_rows_In. split; [exact Hin|].
    intros Hsame.
    assert (c0 = c) by (apply (primary_key_injective (contacts db)); auto).
    subst c0. subst contact_id. apply (Hkept user eq_refl). symmetry. exact Hown0.
Qed.

(** A stored contact stays stored, under its id, with its owner and its
    creation time, through every sequence of operations in which its owner
    does not remove it: what other users create, update or remove, and
    what its owner creates or updates, never takes it away or hands it to
    someone else. *)
Theorem contact_stays_with_its_owner
        (ops : list operation) (db : Session) (c : Contact.t) :
  primary_key db -> List.In c (contacts db) ->
  (forall user, List.In (Remove (Contact.id c) user) ops ->
                User.id user <> Contact.user_id c) ->
  exists c' : Contact.t,
    List.In c' (contacts (run ops db)) /\
    Contact.id c' = Contact.id c /\
    Contact.user_id c' = Contact.user_id c /\
    Contact.created_at c' = Contact.created_at c.
Proof.
  unfold run. revert db c.
  induction ops as [|op ops IH]; cbn [List.fold_left]; intros db c Hpk Hin Hkept.
  - exists c. auto.
  - destruct (perform_keeps_contact op db c Hpk Hin) as (c1 & Hin1 & Hid1 & Hu1 & Ht1).
    { intros user ->. apply Hkept. left. reflexivity. }
    destruct (IH (perform op db) c1) as (c' & Hin' & Hid' & Hu' & Ht').
    + apply perform_primary_key, Hpk.
    + exact Hin1.
    + intros user Hrem. rewrite Hid1 in Hrem. rewrite Hu1. apply Hkept. right. exact Hrem.
    + exists c'. repeat split; [exact Hin' | congruence | congruence | congruence].
Qed.

Lemma contact_stays_with_its_owner_witness :
  exists c' : Contact.t,
    List.In c'
      (contacts
         (run [ Create (sample.body "andy@example.com") sample.bob 300;
                Remove 2 sample.bob;
                Update 2 (sample.body "rita@example.com") sample.bob 400;
                Update 2 (sample.body "rita@example.com") sample.alice 500;
                Remove 1 sample.alice ]
            sample.db)) /\
    Contact.id c' = 2 /\ Contact.user_id c' = 1 /\ Contact.created_at c' = 200.
Proof.
  apply (contact_stays_with_its_owner
           [ Create (sample.body "andy@example.com") sample.bob 300;
             Remove 2 sample.bob;
             Update 2 (sample.body "rita@example.com") sample.bob 400;
             Update 2 (sample.body "rita@example.com") sample.alice 500;
             Remove 1 sample.alice ]
           sample.db sample.anna).
  - split; cbn; repeat constructor; cbn; intuition lia.
  - right. left. reflexivity.
  - intros user [H|[H|[H|[H|[H|[]]]]]]; try discriminate H.
    injection H as <-. cbn. lia.
Defined.

Example contact_stays_with_its_owner_sample :
  List.map (fun c => (Contact.id c, Contact.user_id c, Contact.email c, Contact.created_at c))
    (contacts
       (run [ Create (sample.body "andy@example.com") sample.bob 300;
              Remove 2 sample.bob;
              Update 2 (sample.body "rita@example.com") sample.bob 400;
              Update 2 (sample.body "rita@example.com") sample.alice 500;
              Remove 1 sample.alice ]
          sample.db))
  = [(2, 1, "rita@example.com", 200); (3, 2, "andy@example.com", 300)].
Proof. reflexivity. Qed.

(** ** The birthday window through the month *)

Lemma days_in_month_bounds (y m : Z) : 28 <= datetime.days_in_month y m <= 31.
Proof.
  unfold datetime.days_in_month.
  repeat match goal with |- context [if ?b then _ else _] => destruct b end; lia.
Qed.

Lemma add_days_add (a b : nat) (d : datetime.date) :
  datetime.add_days (a + b) d = datetime.add_days b (datetime.add_days a d).
Proof.
  revert d. induction a as [|a IH]; intros d; cbn; [reflexivity|]. apply IH.
Qed.

Lemma add_days_same_month (n : nat) (d : datetime.date) :
  datetime.day d + Z.of_nat n <= datetime.days_in_month (datetime.year d) (datetime.month d) ->
  datetime.add_days n d
  = {| datetime.year := datetime.year d; datetime.month := datetime.month d;
       datetime.day := datetime.day d + Z.of_nat n |}.
Proof.
  revert d. induction n as [|n IH]; intros d Hfit.
  - destruct d as [y m dd]. cbn. f_equal. lia.
  - cbn [datetime.add_days]. unfold datetime.tomorrow.
    destruct (Z.ltb_spec (datetime.day d)
                (datetime.days_in_month (datetime.year d) (datetime.month d))); [|lia].
    rewrite IH; cbn [datetime.year datetime.month datetime.day]; [f_equal; lia | lia].
Qed.

Lemma add_days_month_end (k j : nat) (d : datetime.date) :
  datetime.day d + Z.of_nat k = datetime.days_in_month (datetime.year d) (datetime.month d) ->
  Z.of_nat j <= 27 ->
  datetime.add_days (k + S j) d
  = {| datetime.year := if (datetime.month d <? 12)%Z then datetime.year d
                        else datetime.year d + 1;
       datetime.month := if (datetime.month d <? 12)%Z then datetime.month d + 1 else 1;
       datetime.day := 1 + Z.of_nat j |}.
Proof.
  intros Hend Hj. rewrite add_days_add. rewrite (add_days_same_month k d) by lia.
  cbn [datetime.add_days]. unfold datetime.tomorrow.
  cbn [datetime.year datetime.month datetime.day].
  rewrite Hend, Z.ltb_irrefl.
  destruct (datetime.month d <? 12)%Z; rewrite add_days_same_month;
    cbn [datetime.year datetime.month datetime.day]; try reflexivity;
    match goal with |- context [datetime.days_in_month ?y ?m] =>
      pose proof (days_in_month_bounds y m) end; lia.
Qed.

(** While today + 7 days is still in today's month, the window is what its
    name says, birth years apart: the caller's contacts born in today's
    month on a day from today's to today's + 7, both included. *)
Theorem get_birthday_within_month (today : datetime.date) (user : User.t) (db : Session) :
  datetime.year today <= datetime.MAXYEAR ->
  datetime.day today + 7
  <= datetime.days_in_month (datetime.year today) (datetime.month today) ->
  exists l : list Contact.t,
    repository_contacts.get_birthday today user db = Return l /\
    forall c : Contact.t,
      List.In c l <->
      List.In c (contacts db) /\ owned_by user c /\
      datetime.month (Contact.birthday c) = datetime.month today /\
      datetime.day today <= datetime.day (Contact.birthday c) <= datetime.day today + 7.
Proof.
  intros Hyear Hfit.
  unfold repository_contacts.get_birthday, datetime.plus_timedelta.
  rewrite (add_days_same_month 7 today) by (cbn; lia).
  cbn [datetime.year]. apply Z.leb_le in Hyear. rewrite Hyear.
  eexists. split; [reflexivity|]. intros c.
  rewrite List.filter_In. unfold repository_contacts.birthday_filter, owned_by.
  cbn [datetime.day]. rewrite !andb_true_iff, Z.geb_le, Z.leb_le, !Z.eqb_eq.
  cbn. tauto.
Qed.

Lemma get_birthday_within_month_witness :
  exists l : list Contact.t,
    repository_contacts.get_birthday sample.may_1st sample.alice sample.db = Return l /\
    forall c : Contact.t,
      List.In c l <->
      List.In c (contacts sample.db) /\ owned_by sample.alice c /\
      datetime.month (Contact.birthday c) = 5 /\
      1 <= datetime.day (Contact.birthday c) <= 1 + 7.
Proof.
  apply (get_birthday_within_month sample.may_1st sample.alice sample.db).
  - cbn. unfold datetime.MAXYEAR. lia.
  - cbn. lia.
Defined.

(** Once today + 7 days falls into the next month, the window closes: the
    day must be at least today's and at most a day of the first week of a
    month, so [get_birthday] returns nothing and the endpoint answers 404,
    whatever is stored.  No birthday of the last week of a month, or of
    the first week of the next, is ever announced then. *)
Theorem get_birthday_empty_at_month_end
        (today : datetime.date) (user : User.t) (db : Session) :
  datetime.valid today -> datetime.year today < datetime.MAXYEAR ->
  datetime.days_in_month (datetime.year today) (datetime.month today)
  < datetime.day today + 7 ->
  repository_contacts.get_birthday today user db = Return [] /\
  routes_contacts.search_contact_7_days_birthday today user db
  = Raise (HTTPException 404 "Not Found").
Proof.
  intros (Hy & Hm & Hd) Hyear Hend.
  pose proof (days_in_month_bounds (datetime.year today) (datetime.month today)) as Hdim.
  set (dim := datetime.days_in_month (datetime.year today) (datetime.month today)) in *.
  set (k := Z.to_nat (dim - datetime.day today)).
  set (j := (6 - k)%nat).
  assert (Hweek : datetime.add_days 7 today
                  = {| datetime.year := if (datetime.month today <? 12)%Z
                                        then datetime.year today
                                        else datetime.year today + 1;
                       datetime.month := if (datetime.month today <? 12)%Z
                                         then datetime.month today + 1 else 1;
                       datetime.day := 1 + Z.of_nat j |}).
  { replace 7%nat with (k + S j)%nat by (subst k j; lia).
    apply add_days_month_end; subst k j dim; lia. }
  assert (Hempty : repository_contacts.get_birthday today user db = Return []).
  { unfold repository_contacts.get_birthday, datetime.plus_timedelta. rewrite Hweek.
    cbn [datetime.year].
    replace (_ <=? datetime.MAXYEAR)%Z with true
      by (symmetry; apply Z.leb_le; destruct (datetime.month today <? 12)%Z; lia).
    f_equal. apply filter_none. intros c _.
    unfold repository_contacts.birthday_filter. cbn [datetime.day].
    destruct (Z.geb_spec (datetime.day (Contact.birthday c)) (datetime.day today));
      destruct (Z.leb_spec (datetime.day (Contact.birthday c)) (1 + Z.of_nat j));
      rewrite ?andb_false_r, ?andb_false_l; cbn; try reflexivity.
    subst k j. lia. }
  split; [exact Hempty|].
  unfold routes_contacts.search_contact_7_days_birthday. now rewrite Hempty.
Qed.

Lemma get_birthday_empty_at_month_end_witness :
  repository_contacts.get_birthday sample.december_28th sample.alice sample.db = Return [] /\
  routes_contacts.search_contact_7_days_birthday sample.december_28th sample.alice sample.db
  = Raise (HTTPException 404 "Not Found").
Proof.
  apply (get_birthday_empty_at_month_end sample.december_28th sample.alice sample.db).
  - unfold datetime.valid, datetime.MAXYEAR. cbn. lia.
  - unfold datetime.MAXYEAR. cbn. lia.
  - cbn. lia.
Defined.

(** * Further properties of the token service *)

Section issued_tokens.

Context `{JWT}.

Lemma decode_issued (e scope : string) (issued exp now : Z) :
  now <= exp ->
  jwt_decode
    (jwt_encode (Auth.stamp {["sub" := JStr e]} issued exp scope) SECRET_KEY ALGORITHM)
    SECRET_KEY [ALGORITHM] now
  = Some (Auth.stamp {["sub" := JStr e]} issued exp scope).
Proof. intros Hnow. exact (jwt_decode_encode e scope issued exp now Hnow). Qed.

Lemma stamp_scope (data : gmap string json) (iat exp : Z) (scope : string) :
  Auth.stamp data iat exp scope !! "scope" = Some (JStr scope).
Proof. unfold Auth.stamp. apply lookup_insert_eq. Qed.

Lemma stamp_sub (e : string) (iat exp : Z) (scope : string) :
  Auth.stamp {["sub" := JStr e]} iat exp scope !! "sub" = Some (JStr e).
Proof.
  unfold Auth.stamp. do 3 (rewrite lookup_insert_ne by discriminate).
  apply lookup_singleton_eq.
Qed.

(** An access token, presented within its 15 minutes, resolves to the
    stored user whose email is its subject; when no user has that email
    the answer is 401. *)
Theorem access_token_resolves_user (e : string) (issued now : Z) (db : Session) :
  now <= issued + Auth.minutes 15 ->
  Auth.get_current_user (Auth.create_access_token {["sub" := JStr e]} None issued) now db
  = match repository_users.get_user_by_email e db with
    | Some user => Return user
    | None => Raise (HTTPException 401 "Could not validate credentials")
    end.
Proof.
  intros Hnow. unfold Auth.get_current_user, Auth.create_access_token. cbn [Auth.expiry].
  rewrite (decode_issued e "access_token" issued _ now Hnow).
  unfold Auth.scope_is. rewrite stamp_scope, stamp_sub. cbn [json_eqb].
  rewrite String.eqb_refl. reflexivity.
Qed.

(** An email-confirmation token, presented within its 3 days, gives back
    the email it was made for. *)
Theorem email_token_round_trip (e : string) (issued now : Z) :
  now <= issued + Auth.days 3 ->
  Auth.get_email_from_token (Auth.create_email_token {["sub" := JStr e]} issued) now
  = Return (Some (JStr e)).
Proof.
  intros Hnow. unfold Auth.get_email_from_token, Auth.create_email_token.
  rewrite (decode_issued e "email_token" issued _ now Hnow).
  rewrite stamp_scope, stamp_sub. cbn [json_eqb]. now rewrite String.eqb_refl.
Qed.

(** [expires_delta] sets the lifetime of a refresh token in seconds,
    except that 0 is falsy and leaves the default of 7 days: the token
    decodes to its subject up to that instant. *)
Theorem refresh_token_lifetime (e : string) (delta issued now : Z) :
  now <= issued + (if (delta =? 0)%Z then Auth.days 7 else delta) ->
  Auth.decode_refresh_token
    (Auth.create_refresh_token {["sub" := JStr e]} (Some delta) issued) now
  = Return (JStr e).
Proof.
  intros Hnow. unfold Auth.decode_refresh_token, Auth.create_refresh_token, Auth.expiry.
  rewrite (decode_issued e "refresh_token" issued _ now).
  - rewrite stamp_scope, stamp_sub. cbn [json_eqb]. now rewrite String.eqb_refl.
  - destruct (delta =? 0)%Z; exact Hnow.
Qed.

(** The tokens the service issues are told apart: while all of them are
    still valid, [get_current_user] refuses a refresh token and an email
    token, and [decode_refresh_token] refuses an access token and an email
    token, each with 401. *)
Theorem issued_tokens_refused_by_other_verifiers
        (e : string) (issued now : Z) (db : Session) :
  now <= issued + Auth.minutes 15 ->
  Auth.get_current_user (Auth.create_refresh_token {["sub" := JStr e]} None issued) now db
  = Raise (HTTPException 401 "Could not validate credentials") /\
  Auth.get_current_user (Auth.create_email_token {["sub" := JStr e]} issued) now db
  = Raise (HTTPException 401 "Could not validate credentials") /\
  Auth.decode_refresh_token (Auth.create_access_token {["sub" := JStr e]} None issued) now
  = Raise (HTTPException 401 "Invalid scope for token") /\
  Auth.decode_refresh_token (Auth.create_email_token {["sub" := JStr e]} issued) now
  = Raise (HTTPException 401 "Invalid scope for token").
Proof.
  intros Hnow. unfold Auth.minutes in Hnow.
  unfold Auth.get_current_user, Auth.decode_refresh_token, Auth.create_refresh_token,
    Auth.create_access_token, Auth.create_email_token, Auth.scope_is.
  cbn [Auth.expiry].
  rewrite !decode_issued by (unfold Auth.days, Auth.minutes; lia).
  rewrite !stamp_scope. repeat split; reflexivity.
Qed.

(** A readable payload that lacks a claim: [get_current_user] reads the
    claims with [get] and answers 401, while [decode_refresh_token] and
    [get_email_from_token] index the payload and let the [KeyError]
    through, for a missing scope and for a missing subject. *)
Theorem missing_claims
        (token_ : token) (now : Z) (db : Session) (payload : gmap string json) :
  jwt_decode token_ SECRET_KEY [ALGORITHM] now = Some payload ->
  (payload !! "scope" = None ->
   Auth.get_current_user token_ now db
   = Raise (HTTPException 401 "Could not validate credentials") /\
   Auth.decode_refresh_token token_ now = Raise (KeyError "scope") /\
   Auth.get_email_from_token token_ now = Raise (KeyError "scope")) /\
  (payload !! "sub" = None ->
   (payload !! "scope" = Some (JStr "access_token") ->
    Auth.get_current_user token_ now db
    = Raise (HTTPException 401 "Could not validate credentials")) /\
   (payload !! "scope" = Some (JStr "refresh_token") ->
    Auth.decode_refresh_token token_ now = Raise (KeyError "sub")) /\
   (payload !! "scope" = Some (JStr "email_token") ->
    Auth.get_email_from_token token_ now = Raise (KeyError "sub"))).
Proof.
  intros Hdecode.
  unfold Auth.get_current_user, Auth.decode_refresh_token, Auth.get_email_from_token,
    Auth.scope_is.
  rewrite Hdecode. split.
  - intros ->. auto.
  - intros ->. repeat split; intros ->; reflexivity.
Qed.

(** A token the library cannot decode (forged, malformed or expired) is a
    401 for the two credential verifiers and a 422 for the
    email-confirmation verifier. *)
Theorem undecodable_token_errors (token_ : token) (now : Z) (db : Session) :
  jwt_decode token_ SECRET_KEY [ALGORITHM] now = None ->
  Auth.get_current_user token_ now db
  = Raise (HTTPException 401 "Could not validate credentials") /\
  Auth.decode_refresh_token token_ now
  = Raise (HTTPException 401 "Could not validate credentials") /\
  Auth.get_email_from_token token_ now
  = Raise (HTTPException 422 "Invalid token for email verification").
Proof.
  intros Hdecode.
  destruct (verifiers_reject_undecodable token_ now db Hdecode) as [Hu Hr].
  repeat split; try assumption.
  exact (proj1 (get_email_from_token_other_scope token_ now) Hdecode).
Qed.

End issued_tokens.

(** The same, at the symbolic library. *)

Lemma access_token_resolves_user_witness :
  @Auth.get_current_user symbolic.library
    (@Auth.create_access_token symbolic.library
       {["sub" := JStr "bob@example.com"]} None 1000) 1900 sample.db
  = Return sample.bob.
Proof.
  refine (eq_trans
            (@access_token_resolves_user symbolic.library "bob@example.com" 1000 1900
               sample.db _) _).
  - unfold Auth.minutes. lia.
  - reflexivity.
Defined.

Lemma email_token_round_trip_witness :
  @Auth.get_email_from_token symbolic.library
    (@Auth.create_email_token symbolic.library {["sub" := JStr "bob@example.com"]} 1000)
    200000
  = Return (Some (JStr "bob@example.com")).
Proof.
  apply (@email_token_round_trip symbolic.library "bob@example.com" 1000 200000).
  unfold Auth.days. lia.
Defined.

Lemma refresh_token_lifetime_witness :
  @Auth.decode_refresh_token symbolic.library
    (@Auth.create_refresh_token symbolic.library
       {["sub" := JStr "bob@example.com"]} (Some 60) 1000) 1060
  = Return (JStr "bob@example.com") /\
  @Auth.decode_refresh_token symbolic.library
    (@Auth.create_refresh_token symbolic.library
       {["sub" := JStr "bob@example.com"]} (Some 0) 1000) 600000
  = Return (JStr "bob@example.com").
Proof.
  split.
  - apply (@refresh_token_lifetime symbolic.library "bob@example.com" 60 1000 1060).
    vm_compute. intros Hgt. discriminate Hgt.
  - apply (@refresh_token_lifetime symbolic.library "bob@example.com" 0 1000 600000).
    vm_compute. intros Hgt. discriminate Hgt.
Defined.

Lemma issued_tokens_refused_by_other_verifiers_witness :
  @Auth.get_current_user symbolic.library
    (@Auth.create_refresh_token symbolic.library
       {["sub" := JStr "bob@example.com"]} None 1000) 1500 sample.db
  = Raise (HTTPException 401 "Could not validate credentials") /\
  @Auth.get_current_user symbolic.library
    (@Auth.create_email_token symbolic.library {["sub" := JStr "bob@example.com"]} 1000)
    1500 sample.db
  = Raise (HTTPException 401 "Could not validate credentials") /\
  @Auth.decode_refresh_token symbolic.library
    (@Auth.create_access_token symbolic.library
       {["sub" := JStr "bob@example.com"]} None 1000) 1500
  = Raise (HTTPException 401 "Invalid scope for token") /\
  @Auth.decode_refresh_token symbolic.library
    (@Auth.create_email_token symbolic.library {["sub" := JStr "bob@example.com"]} 1000)
    1500
  = Raise (HTTPException 401 "Invalid scope for token").
Proof.
  apply (@issued_tokens_refused_by_other_verifiers symbolic.library
           "bob@example.com" 1000 1500 sample.db).
  unfold Auth.minutes. lia.
Defined.

Lemma missing_claims_witness :
  let no_scope := symbolic.Signed {["sub" := JStr "bob@example.com"]} "secret_key" "HS256" in
  let no_sub := symbolic.Signed {["scope" := JStr "refresh_token"]} "secret_key" "HS256" in
  @Auth.get_current_user symbolic.library no_scope 1500 sample.db
  = Raise (HTTPException 401 "Could not validate credentials") /\
  @Auth.decode_refresh_token symbolic.library no_scope 1500 = Raise (KeyError "scope") /\
  @Auth.get_email_from_token symbolic.library no_scope 1500 = Raise (KeyError "scope") /\
  @Auth.decode_refresh_token symbolic.library no_sub 1500 = Raise (KeyError "sub").
Proof.
  intros no_scope no_sub.
  pose proof (@missing_claims symbolic.library no_scope 1500 sample.db
                {["sub" := JStr "bob@example.com"]}) as Hscope.
  pose proof (@missing_claims symbolic.library no_sub 1500 sample.db
                {["scope" := JStr "refresh_token"]}) as Hsub.
  assert (H1 := proj1 (Hscope ltac:(vm_compute; reflexivity)) ltac:(vm_compute; reflexivity)).
  assert (H2 := proj1 (proj2 (proj2 (Hsub ltac:(vm_compute; reflexivity))
                                ltac:(vm_compute; reflexivity)))
                  ltac:(vm_compute; reflexivity)).
  destruct H1 as (Ha & Hb & Hc). auto.
Defined.

Lemma undecodable_token_errors_witness :
  let forged := symbolic.Signed
                  (Auth.stamp {["sub" := JStr "bob@example.com"]} 1000 2000 "access_token")
                  "guessed_key" "HS256" in
  @Auth.get_current_user symbolic.library forged 1500 sample.db
  = Raise (HTTPException 401 "Could not validate credentials") /\
  @Auth.decode_refresh_token symbolic.library forged 1500
  = Raise (HTTPException 401 "Could not validate credentials") /\
  @Auth.get_email_from_token symbolic.library forged 1500
  = Raise (HTTPException 422 "Invalid token for email verification").
Proof.
  intros forged.
  apply (@undecodable_token_errors symbolic.library forged 1500 sample.db).
  vm_compute. reflexivity.
Defined.
